(** * Mestre Parrilleros scraper: a shallow embedding of [scraper.py]

    The development follows the layout of the source file:
    - [Texto]: the string primitives the scraper relies on ([str.strip],
      [str.replace], [re.sub], [re.search], [float]);
    - [limpar_preco]: the price parser;
    - [extrair_produtos_pagina]: the per-page extraction;
    - [scrape_categoria_com_paginacao]: the category walker;
    - [scrape_com_retry]: the retry loop;
    - [salvar_postgres]: the upsert-based persister;
    - the pagination script of [detectar_total_paginas],
      [scrape_mestre_parrillero], the per-category summary and [main].

    Strings are byte strings ([string] / [list ascii]); the character
    classes [\s] and [\d] are the ones Python uses on the ASCII range. *)

From Stdlib Require Import ZArith Ascii String Lia.
From stdpp Require Import gmap strings list pretty.

Local Open Scope Z_scope.

(** ** Python values and exceptions *)

(** A decimal literal [mant * 10^(-casas)]: the number a call
    [float("1510.40")] is given, before rounding to a double. *)
Record decimal := Decimal { mant : Z; casas : nat }.

Inductive excecao :=
| ValueError
| Excecao (codigo : nat).

(** Outcome of a Python call: a value or a raised exception. *)
Inductive py (A : Type) :=
| Retorna (a : A)
| Levanta (e : excecao).
Arguments Retorna {A} a.
Arguments Levanta {A} e.

#[global] Instance excecao_eq_dec : EqDecision excecao.
Proof. solve_decision. Defined.
#[global] Instance py_eq_dec {A} `{EqDecision A} : EqDecision (py A).
Proof. solve_decision. Defined.

Module Texto.

(** *** Character classes *)

Definition cod (c : ascii) : N := N_of_ascii c.

(** [str.isspace] on the ASCII range, which is also what [\s] matches:
    TAB, LF, VT, FF, CR, FS, GS, RS, US and SPACE. *)
Definition py_space (c : ascii) : bool :=
  let n := cod c in
  ((9 <=? n) && (n <=? 13) || (28 <=? n) && (n <=? 32))%N.

(** JavaScript's [String.prototype.trim] whitespace on the ASCII range. *)
Definition js_space (c : ascii) : bool :=
  let n := cod c in
  ((9 <=? n) && (n <=? 13) || (n =? 32))%N.

(** [\d] *)
Definition digito (c : ascii) : bool :=
  let n := cod c in ((48 <=? n) && (n <=? 57))%N.

Definition valor_digito (c : ascii) : Z := Z.of_N (cod c) - 48.

Definition e_char (a : ascii) : ascii -> bool := fun c => Ascii.eqb a c.

#[global] Arguments e_char : simpl never.
#[global] Arguments py_space : simpl never.
#[global] Arguments js_space : simpl never.
#[global] Arguments digito : simpl never.

(** *** [str.strip] and [str.replace] *)

Fixpoint lstrip (esp : ascii -> bool) (s : list ascii) : list ascii :=
  match s with
  | c :: t => if esp c then lstrip esp t else s
  | [] => []
  end.

Definition strip (esp : ascii -> bool) (s : list ascii) : list ascii :=
  rev (lstrip esp (rev (lstrip esp s))).

(** [s.replace(old, new)] for a one-character [old], the only form the
    scraper uses. *)
Fixpoint replace (old : ascii) (new : list ascii) (s : list ascii) : list ascii :=
  match s with
  | c :: t => (if Ascii.eqb c old then new else [c]) ++ replace old new t
  | [] => []
  end.

(** *** A backtracking matcher for the regular expressions of the source *)

Inductive regex :=
| Cls (p : ascii -> bool)          (* one character of a class *)
| Cat (r1 r2 : regex)              (* r1 r2 *)
| Star (r : regex)                 (* r*, greedy *)
| Plus (r : regex)                 (* r+, greedy *)
| Rep (n : nat) (r : regex).       (* r{n} *)

Definition Lit (a : ascii) : regex := Cls (e_char a).

Definition mais_curto (s s1 : list ascii) : Prop :=
  (length s1 < length s)%nat.

#[global] Instance mais_curto_dec s s1 : Decision (mais_curto s s1).
Proof. unfold mais_curto. apply _. Defined.

(** Greedy iteration: every way of matching [m] repeatedly from [s], the
    longest first, each iteration consuming at least one character. *)
Fixpoint star_m (m : list ascii -> list (list ascii)) (fuel : nat)
    (s : list ascii) : list (list ascii) :=
  match fuel with
  | O => [s]
  | S f => (s1 ← filter (mais_curto s) (m s); star_m m f s1) ++ [s]
  end.

Fixpoint rep_m (m : list ascii -> list (list ascii)) (n : nat)
    (s : list ascii) : list (list ascii) :=
  match n with
  | O => [s]
  | S k => s1 ← m s; rep_m m k s1
  end.

(** [restos r s]: what is left of [s] after each way of matching [r] at
    its start, in the order a backtracking engine tries them. *)
Fixpoint restos (r : regex) (s : list ascii) : list (list ascii) :=
  match r with
  | Cls p => match s with
             | c :: t => if p c then [t] else []
             | [] => []
             end
  | Cat r1 r2 => s1 ← restos r1 s; restos r2 s1
  | Star r1 => star_m (restos r1) (length s) s
  | Plus r1 => s1 ← restos r1 s; star_m (restos r1) (length s1) s1
  | Rep n r1 => rep_m (restos r1) n s
  end.

(** The words of the language of [r]. *)
Inductive pertence : regex -> list ascii -> Prop :=
| P_cls p c : p c = true -> pertence (Cls p) [c]
| P_cat r1 r2 w1 w2 :
    pertence r1 w1 -> pertence r2 w2 -> pertence (Cat r1 r2) (w1 ++ w2)
| P_star_nil r : pertence (Star r) []
| P_star_cons r w1 w2 :
    pertence r w1 -> pertence (Star r) w2 -> pertence (Star r) (w1 ++ w2)
| P_plus r w1 w2 :
    pertence r w1 -> pertence (Star r) w2 -> pertence (Plus r) (w1 ++ w2)
| P_rep_O r : pertence (Rep 0 r) []
| P_rep_S r n w1 w2 :
    pertence r w1 -> pertence (Rep n r) w2 -> pertence (Rep (S n) r) (w1 ++ w2).

(** [s.startswith(pat)] *)
Fixpoint comeca_com (pat s : list ascii) : bool :=
  match pat, s with
  | [], _ => true
  | p :: pt, c :: t => Ascii.eqb p c && comeca_com pt t
  | _ :: _, [] => false
  end.

(** Number of positions of [s] at which [pat] occurs. *)
Fixpoint ocorrencias (pat s : list ascii) : nat :=
  match s with
  | [] => 0
  | _ :: t => ((if comeca_com pat s then 1 else 0) + ocorrencias pat t)%nat
  end.

(** Whitespace in normal form: every whitespace character is a single
    space between two other characters. *)
Definition comeca_com_espaco (s : list ascii) : bool :=
  match s with
  | c :: _ => py_space c
  | [] => false
  end.

Fixpoint espacos_simples (s : list ascii) : bool :=
  match s with
  | [] => true
  | c :: t =>
      (negb (py_space c) || (e_char " " c && negb (comeca_com_espaco t)))
      && espacos_simples t
  end.

Definition colapsado (s : list ascii) : bool :=
  espacos_simples s && negb (comeca_com_espaco s) && negb (comeca_com_espaco (rev s)).

(** The preferred non-empty match of [r] at the start of [s]. *)
Definition casa (r : regex) (s : list ascii) : option (list ascii) :=
  head (filter (mais_curto s) (restos r s)).

(** [re.search(r, s).group(0)]: the leftmost match, [None] if there is none. *)
Fixpoint re_search (r : regex) (s : list ascii) : option (list ascii) :=
  match casa r s with
  | Some s1 => Some (take (length s - length s1) s)
  | None => match s with
            | _ :: t => re_search r t
            | [] => None
            end
  end.

(** [re.sub(r, repl, s)] for a pattern that does not match the empty
    string: non-overlapping matches are replaced from left to right. *)
Fixpoint re_sub_aux (fuel : nat) (r : regex) (repl s : list ascii) : list ascii :=
  match fuel with
  | O => s
  | S f =>
      match s with
      | [] => []
      | c :: t =>
          match casa r s with
          | Some s1 => repl ++ re_sub_aux f r repl s1
          | None => c :: re_sub_aux f r repl t
          end
      end
  end.

Definition re_sub (r : regex) (repl s : list ascii) : list ascii :=
  re_sub_aux (length s) r repl s.

(** *** [float] on an unsigned decimal literal *)

Fixpoint numero (acc : Z) (ds : list ascii) : Z :=
  match ds with
  | c :: t => numero (10 * acc + valor_digito c) t
  | [] => acc
  end.

Definition todos_digitos (s : list ascii) : bool := forallb digito s.

Fixpoint ate_ponto (s : list ascii) : list ascii * option (list ascii) :=
  match s with
  | [] => ([], None)
  | c :: t =>
      if Ascii.eqb c "."%char then ([], Some t)
      else let '(i, f) := ate_ponto t in (c :: i, f)
  end.

(** [float(s)] for [s] of the shape [digits], [digits.digits], [digits.]
    or [.digits]; any other text raises [ValueError].  The result is the
    decimal the literal denotes. *)
Definition py_float (s : list ascii) : py decimal :=
  let '(i, f) := ate_ponto s in
  let fr := default [] f in
  if todos_digitos i && todos_digitos fr
     && negb ((length i + length fr =? 0)%nat)
  then Retorna (Decimal (numero 0 (i ++ fr)) (length fr))
  else Levanta ValueError.

End Texto.

Import Texto.

Abbreviation txt := list_ascii_of_string.
Abbreviation str := string_of_list_ascii.

(** ** [limpar_preco] *)

Record preco_info := PrecoInfo { texto : string; valor : option decimal }.

(** [r'R\$\s*R\$'] *)
Definition re_cifrao_duplo : regex :=
  Cat (Lit "R") (Cat (Lit "$") (Cat (Star (Cls py_space)) (Cat (Lit "R") (Lit "$")))).

(** [r'\s+'] *)
Definition re_espacos : regex := Plus (Cls py_space).

(** [r'([\d.]+,\d{2})'] *)
Definition re_valor : regex :=
  Cat (Plus (Cls (fun c => digito c || e_char "." c)))
      (Cat (Lit ",") (Rep 2 (Cls digito))).

Definition limpar_preco (preco_str : string) : py preco_info :=
  if bool_decide (preco_str = ""%string) || bool_decide (preco_str = "Consultar"%string)
  then Retorna (PrecoInfo "Consultar" None)
  else
    let preco_limpo := re_sub re_cifrao_duplo (txt "R$") (txt preco_str) in
    let preco_limpo := strip py_space (re_sub re_espacos (txt " ") preco_limpo) in
    match re_search re_valor preco_limpo with
    | Some valor_str =>
        match py_float (replace "," (txt ".") (replace "." [] valor_str)) with
        | Retorna valor_float => Retorna (PrecoInfo (str preco_limpo) (Some valor_float))
        | Levanta e => Levanta e
        end
    | None => Retorna (PrecoInfo (str preco_limpo) None)
    end.


(** The cleaned text [preco_limpo] the second and third statements of
    [limpar_preco] compute. *)
Definition preco_limpo_de (preco_str : list ascii) : list ascii :=
  strip py_space (re_sub re_espacos (txt " ") (re_sub re_cifrao_duplo (txt "R$") preco_str)).

(** ** Product records

    A product is a Python [dict] from field names to values. *)

(** A parsed [datetime]. *)
Record datetime := DateTime {
  ano : Z; mes : Z; dia : Z; hora : Z; minuto : Z; segundo : Z;
  micro : Z; fuso : option Z
}.

Inductive valor_py :=
| VNone
| VStr (s : string)
| VNum (d : decimal)
| VData (t : datetime).

#[global] Instance decimal_eq_dec : EqDecision decimal.
Proof. solve_decision. Defined.
#[global] Instance datetime_eq_dec : EqDecision datetime.
Proof. solve_decision. Defined.
#[global] Instance valor_py_eq_dec : EqDecision valor_py.
Proof. solve_decision. Defined.

Abbreviation produto := (gmap string valor_py).

(** [d.get(k, padrao)] *)
Definition get (d : produto) (k : string) (padrao : valor_py) : valor_py :=
  default padrao (d !! k).

(** Python truthiness of a value held in a product field. *)
Definition verdadeiro (v : valor_py) : bool :=
  match v with
  | VNone => false
  | VStr s => negb (bool_decide (s = ""%string))
  | VNum d => negb (mant d =? 0)
  | VData _ => true
  end.

(** ** [extrair_produtos_pagina] *)

(** What the queries of the in-page script read from one
    [li .listagem-item] element. *)
Record elemento := Elemento {
  e_falha : bool;                       (* reading the element throws *)
  e_nome : option string;               (* .nome-produto textContent *)
  e_sobrepor : option (option string);  (* .produto-sobrepor, its href *)
  e_a_href : option string;             (* first a[href], its href *)
  e_preco_venda : option string;        (* .preco-venda textContent *)
  e_preco_parcela : option string;      (* .preco-parcela strong.cor-principal *)
  e_img : option (option string * option string); (* .imagem-principal: src, data-src *)
  e_data_id : option string;            (* dataset.id *)
  e_class : string;                     (* className *)
  e_sku : option string                 (* .produto-sku textContent *)
}.

(** [s.trim()] *)
Definition js_trim (s : string) : string := str (strip js_space (txt s)).

(** JavaScript [a || b] on strings that may be undefined. *)
Definition ou (a : option string) (b : string) : string :=
  match a with
  | Some s => if bool_decide (s = ""%string) then b else s
  | None => b
  end.

(** [/prod-id-(\d+)/] *)
Definition re_prod_id : regex :=
  Cat (Lit "p") (Cat (Lit "r") (Cat (Lit "o") (Cat (Lit "d") (Cat (Lit "-")
  (Cat (Lit "i") (Cat (Lit "d") (Cat (Lit "-") (Plus (Cls digito))))))))).

(** [className.match(/prod-id-(\d+)/)?.[1]] *)
Definition class_prod_id (cls : string) : option string :=
  (fun m => str (drop 8 m)) <$> re_search re_prod_id (txt cls).

(** [nomeEl?.textContent?.trim() || ''] *)
Definition nome_do_elemento (product : elemento) : string :=
  ou (js_trim <$> e_nome product) "".

(** [linkEl?.href || ''], where [linkEl] is the [.produto-sobrepor]
    element or else the first [a[href]]. *)
Definition link_do_elemento (product : elemento) : string :=
  match e_sobrepor product with
  | Some linkEl => ou linkEl ""
  | None => ou (e_a_href product) ""
  end.

(** The body of the [forEach] callback: the item pushed for one element,
    if any. *)
Definition item_do_elemento (product : elemento) : option produto :=
  if e_falha product then None
  else
    let nome := nome_do_elemento product in
    let link := link_do_elemento product in
    let preco :=
      match e_preco_venda product with
      | Some t => ("R$ " +:+ js_trim t)%string
      | None => ou (js_trim <$> e_preco_parcela product) ""
      end in
    let imagem :=
      match e_img product with
      | Some (src, data_src) => ou src (ou data_src "")
      | None => ""%string
      end in
    let prodId := ou (e_data_id product) (ou (class_prod_id (e_class product)) "") in
    let sku := ou (js_trim <$> e_sku product) "" in
    if negb (bool_decide (nome = ""%string)) && negb (bool_decide (link = ""%string))
    then Some (<["id" := VStr prodId]>
              (<["sku" := VStr sku]>
              (<["nome" := VStr nome]>
              (<["preco" := VStr (ou (Some preco) "Consultar")]>
              (<["imagem" := VStr imagem]>
              (<["link" := VStr link]>
              (<["metodo_extracao" := VStr ".listagem-item"]> ∅)))))))
    else None.

(** The array the in-page script returns. *)
Definition itens_da_pagina (dom : list elemento) : list produto :=
  omap item_do_elemento dom.

(** The Python loop body: category, cleaned price, timestamp, status. *)
Definition enriquecer (categoria_nome : string) (timestamp : string)
    (p : produto) : py produto :=
  match p !! "preco"%string with
  | Some (VStr preco) =>
      match limpar_preco preco with
      | Retorna preco_info =>
          Retorna (<["status" := VStr "Disponível"]>
                  (<["data_scraping" := VStr timestamp]>
                  (<["preco_valor" := from_option VNum VNone (valor preco_info)]>
                  (<["preco_texto" := VStr (texto preco_info)]>
                  (<["categoria" := VStr categoria_nome]> p)))))
      | Levanta e => Levanta e
      end
  | _ => Levanta (Excecao 0)
  end.

Fixpoint para_cada {A B} (f : A -> py B) (l : list A) : py (list B) :=
  match l with
  | [] => Retorna []
  | x :: t =>
      match f x with
      | Retorna y =>
          match para_cada f t with
          | Retorna ys => Retorna (y :: ys)
          | Levanta e => Levanta e
          end
      | Levanta e => Levanta e
      end
  end.

(** [extrair_produtos_pagina(page, categoria_nome)] on the DOM snapshot
    [dom]; [timestamp] is [datetime.now().isoformat()]. *)
Definition extrair_produtos_pagina (dom : list elemento)
    (categoria_nome : string) (timestamp : string) : py (list produto) :=
  para_cada (enriquecer categoria_nome timestamp) (itens_da_pagina dom).

(** ** [scrape_categoria_com_paginacao] *)

(** An entry of [CATEGORIAS]. *)
Record categoria := Categoria { c_nome : string; c_url : string; c_slug : string }.

(** What the browser answers during the walk of one category.  Pages
    are numbered from 1. *)
Record mundo := Mundo {
  ir_base : py Z;                         (* page.goto(url_base): response.status *)
  assentar_base : py unit;                (* the wait and the three scrolls after it *)
  paginacao : py Z;                       (* result of the pagination script *)
  ir_pagina : Z -> py unit;               (* page.goto(url_base?pagina=n), wait, scrolls *)
  dom_pagina : Z -> py (list elemento);   (* the listing elements found on page n *)
  relogio : Z -> string                   (* datetime.now().isoformat() on page n *)
}.

(** [detectar_total_paginas]: [max(1, total)], and 1 when the script fails. *)
Definition detectar_total_paginas (m : mundo) : Z :=
  match paginacao m with
  | Retorna total_paginas => Z.max 1 total_paginas
  | Levanta _ => 1
  end.

(** [f"{url_base}?pagina={num_pagina}"] *)
Definition url_da_pagina (url_base : string) (num_pagina : Z) : string :=
  (url_base +:+ "?pagina=" +:+ pretty num_pagina)%string.

(** Navigation (for pages after the first) and extraction of page
    [num_pagina]: the part of the loop body before the emptiness test. *)
Definition visita (m : mundo) (cat : categoria) (num_pagina : Z) : py (list produto) :=
  match (if 1 <? num_pagina then ir_pagina m num_pagina else Retorna ()) with
  | Levanta e => Levanta e
  | Retorna _ =>
      match dom_pagina m num_pagina with
      | Levanta e => Levanta e
      | Retorna dom => extrair_produtos_pagina dom (c_nome cat) (relogio m num_pagina)
      end
  end.

(** [produto['fonte'] = url_atual] over the page's records. *)
Definition marcar_fonte (url_base : string) (num_pagina : Z)
    (produtos_pagina : list produto) : list produto :=
  let url_atual := if 1 <? num_pagina then url_da_pagina url_base num_pagina
                   else url_base in
  (fun p : produto => <["fonte" := VStr url_atual]> p) <$> produtos_pagina.

(** The [for num_pagina in range(1, total_paginas + 1)] loop.  The state
    is the list of URLs given to [page.goto] so far and [todos_produtos].
    The pause that ends an iteration is left out: an exception in it is
    caught by the same handler, which continues with the next page. *)
Fixpoint percorrer (m : mundo) (cat : categoria) (paginas : list Z)
    (visitas : list string) (todos_produtos : list produto)
    : list string * list produto :=
  match paginas with
  | [] => (visitas, todos_produtos)
  | num_pagina :: resto =>
      let visitas :=
        if 1 <? num_pagina
        then visitas ++ [url_da_pagina (c_url cat) num_pagina] else visitas in
      match visita m cat num_pagina with
      | Retorna produtos_pagina =>
          match produtos_pagina with
          | _ :: _ =>
              percorrer m cat resto visitas
                (todos_produtos ++ marcar_fonte (c_url cat) num_pagina produtos_pagina)
          | [] =>
              if 1 <? num_pagina then (visitas, todos_produtos)
              else percorrer m cat resto visitas todos_produtos
          end
      | Levanta _ => percorrer m cat resto visitas todos_produtos
      end
  end.

(** The walk of one category: the URLs visited, in order, and the
    records returned. *)
Definition scrape_categoria_com_paginacao (m : mundo) (cat : categoria)
    (max_paginas : Z) : list string * list produto :=
  let url_base := c_url cat in
  match ir_base m with
  | Levanta _ => ([url_base], [])
  | Retorna status =>
      if negb (status =? 200) then ([url_base], [])
      else
        match assentar_base m with
        | Levanta _ => ([url_base], [])
        | Retorna _ =>
            let total_paginas := Z.min (detectar_total_paginas m) max_paginas in
            percorrer m cat (seqZ 1 total_paginas) [url_base] []
        end
  end.

(** The records page [num_pagina] contributes: its extracted records
    with their source URL, nothing when the visit raised. *)
Definition colhidos (m : mundo) (cat : categoria) (num_pagina : Z) : list produto :=
  match visita m cat num_pagina with
  | Retorna produtos_pagina => marcar_fonte (c_url cat) num_pagina produtos_pagina
  | Levanta _ => []
  end.

(** ** [scrape_com_retry] *)

(** The loop over [range(1, max_tentativas + 1)]; [scrape t] is the
    outcome of [scrape_mestre_parrillero] on attempt [t].  The state is
    the list of delays given to [asyncio.sleep] so far. *)
Fixpoint tentar (scrape : Z -> py (list produto)) (max_tentativas : Z)
    (tentativas : list Z) (sonos : list Z) : list Z * py (list produto) :=
  match tentativas with
  | [] => (sonos, Retorna [])
  | tentativa :: resto =>
      match scrape tentativa with
      | Retorna (p :: ps) => (sonos, Retorna (p :: ps))
      | Retorna [] =>
          if tentativa <? max_tentativas
          then tentar scrape max_tentativas resto (sonos ++ [2 ^ tentativa])
          else tentar scrape max_tentativas resto sonos
      | Levanta e =>
          if tentativa <? max_tentativas
          then tentar scrape max_tentativas resto (sonos ++ [2 ^ tentativa])
          else (sonos, Levanta e)
      end
  end.

Definition scrape_com_retry (scrape : Z -> py (list produto))
    (max_tentativas : Z) : list Z * py (list produto) :=
  tentar scrape max_tentativas (seqZ 1 max_tentativas) [].

(** An attempt is successful when it returns at least one record. *)
Definition sucesso (r : py (list produto)) : Prop :=
  exists p ps, r = Retorna (p :: ps).

(** ** [salvar_postgres] *)

(** A row of the table [produtos]. *)
Record linha := Linha {
  l_id : Z;
  l_produto_id : valor_py;
  l_sku : valor_py;
  l_nome : valor_py;
  l_preco_texto : valor_py;
  l_preco_valor : valor_py;
  l_imagem : valor_py;
  l_link : valor_py;
  l_categoria : valor_py;
  l_status : valor_py;
  l_fonte : valor_py;
  l_data_scraping : valor_py;
  l_criado_em : Z;
  l_atualizado_em : Z
}.

(** The table and the next value of its [SERIAL] sequence. *)
Record banco := Banco { linhas : list linha; prox_id : Z }.

(** The eleven values bound to the placeholders of [upsert_sql]. *)
Record parametros := Parametros {
  v_produto_id : valor_py;
  v_sku : valor_py;
  v_nome : valor_py;
  v_preco_texto : valor_py;
  v_preco_valor : valor_py;
  v_imagem : valor_py;
  v_link : valor_py;
  v_categoria : valor_py;
  v_status : valor_py;
  v_fonte : valor_py;
  v_data_scraping : valor_py
}.

(** The row [INSERT INTO produtos (...) VALUES (...)] proposes: the
    defaults fill [id], [criado_em] and [atualizado_em]. *)
Definition linha_nova (agora : Z) (id : Z) (v : parametros) : linha :=
  Linha id (v_produto_id v) (v_sku v) (v_nome v) (v_preco_texto v)
    (v_preco_valor v) (v_imagem v) (v_link v) (v_categoria v) (v_status v)
    (v_fonte v) (v_data_scraping v) agora agora.

(** [DO UPDATE SET col = EXCLUDED.col, ..., atualizado_em =
    CURRENT_TIMESTAMP] on the stored row [l]. *)
Definition linha_atualizada (agora : Z) (v : parametros) (l : linha) : linha :=
  Linha (l_id l) (v_produto_id v) (v_sku v) (v_nome v) (v_preco_texto v)
    (v_preco_valor v) (v_imagem v) (l_link l) (v_categoria v) (v_status v)
    (v_fonte v) (v_data_scraping v) (l_criado_em l) agora.

(** [ON CONFLICT (link) DO UPDATE] on the row, if any, that has the link
    of the proposed one. *)
Fixpoint em_conflito (agora : Z) (v : parametros) (ls : list linha)
    : option (list linha) :=
  match ls with
  | [] => None
  | l :: t =>
      if decide (l_link l = v_link v)
      then Some (linha_atualizada agora v l :: t)
      else (fun t' => l :: t') <$> em_conflito agora v t
  end.

(** One execution of [upsert_sql] at transaction time [agora]
    ([CURRENT_TIMESTAMP]); the boolean is the returned [(xmax = 0)],
    true for an inserted row.  The sequence advances on every execution.
    The table accepts every statement: rejections by the database engine
    are outside this model. *)
Definition upsert_sql (agora : Z) (v : parametros) (b : banco) : banco * bool :=
  match em_conflito agora v (linhas b) with
  | Some ls => (Banco ls (prox_id b + 1), false)
  | None => (Banco (linhas b ++ [linha_nova agora (prox_id b) v]) (prox_id b + 1), true)
  end.


(** [UNIQUE(link)] *)
Definition links_unicos (b : banco) : Prop := NoDup (l_link <$> linhas b).


Record estatisticas := Estatisticas { inseridos : nat; atualizados : nat; erros : nat }.

(** What the database connection does during one call. *)
Record ambiente := Ambiente {
  conecta : bool;      (* criar_conexao_postgres returns a connection *)
  cursor_ok : bool;    (* conn.cursor() returns *)
  commit_ok : bool;    (* conn.commit() returns *)
  agora : Z            (* CURRENT_TIMESTAMP of the transaction *)
}.

Section Persistencia.

(** [datetime.fromisoformat], whose accepted formats depend on the
    Python version. *)
Variable fromisoformat : list ascii -> py datetime.

(** The [try] part of the loop body up to the argument tuple. *)
Definition preparar (p : produto) : py parametros :=
  let data_scraping :=
    match get p "data_scraping" VNone with
    | VStr s =>
        match fromisoformat (replace "Z" (txt "+00:00") (txt s)) with
        | Retorna t => Retorna (VData t)
        | Levanta e => Levanta e
        end
    | v => Retorna v
    end in
  match data_scraping with
  | Retorna data_scraping =>
      Retorna (Parametros
        (get p "id" (VStr ""))
        (get p "sku" (VStr ""))
        (get p "nome" (VStr ""))
        (get p "preco_texto" (VStr ""))
        (get p "preco_valor" VNone)
        (get p "imagem" (VStr ""))
        (get p "link" (VStr ""))
        (get p "categoria" (VStr ""))
        (get p "status" (VStr "Disponível"))
        (get p "fonte" (VStr ""))
        data_scraping)
  | Levanta e => Levanta e
  end.


(** The [for produto in produtos] loop. *)
Fixpoint gravar (agora : Z) (produtos : list produto) (b : banco)
    (st : estatisticas) : estatisticas * banco :=
  match produtos with
  | [] => (st, b)
  | p :: resto =>
      match preparar p with
      | Retorna v =>
          let '(b', inserted) := upsert_sql agora v b in
          gravar agora resto b'
            (if inserted
             then Estatisticas (S (inseridos st)) (atualizados st) (erros st)
             else Estatisticas (inseridos st) (S (atualizados st)) (erros st))
      | Levanta _ =>
          gravar agora resto b
            (Estatisticas (inseridos st) (atualizados st) (S (erros st)))
      end
  end.

(** [salvar_postgres(produtos, conn)]: the returned counts and the
    committed table.  [conn_dada] tells whether the caller passed a
    connection. *)
Definition salvar_postgres (amb : ambiente) (conn_dada : bool)
    (produtos : list produto) (b : banco) : estatisticas * banco :=
  match produtos with
  | [] => (Estatisticas 0 0 0, b)
  | _ :: _ =>
      if negb conn_dada && negb (conecta amb)
      then (Estatisticas 0 0 (length produtos), b)
      else if negb (cursor_ok amb)
      then (Estatisticas 0 0 (length produtos), b)
      else
        let '(st, b') := gravar (agora amb) produtos b (Estatisticas 0 0 0) in
        if commit_ok amb then (st, b')
        else (Estatisticas 0 0 (length produtos), b)
  end.

End Persistencia.

(** A connection is there, and [cursor()] and [commit()] return. *)
Definition disponivel (amb : ambiente) (conn_dada : bool) : Prop :=
  (conn_dada = true \/ conecta amb = true)
  /\ cursor_ok amb = true /\ commit_ok amb = true.

(** A reader for the text [datetime.isoformat()] prints for a naive time
    without microseconds, [YYYY-MM-DDTHH:MM:SS]; used to run the
    persister on concrete batches. *)
Definition iso_basico (s : list ascii) : py datetime :=
  match s with
  | [a1; a2; a3; a4; t1; m1; m2; t2; d1; d2; sep; h1; h2; c1; n1; n2; c2; s1; s2] =>
      if forallb digito [a1; a2; a3; a4; m1; m2; d1; d2; h1; h2; n1; n2; s1; s2]
         && e_char "-" t1 && e_char "-" t2 && e_char "T" sep
         && e_char ":" c1 && e_char ":" c2
      then
        let mes := numero 0 [m1; m2] in
        let dia := numero 0 [d1; d2] in
        let hora := numero 0 [h1; h2] in
        let minuto := numero 0 [n1; n2] in
        let segundo := numero 0 [s1; s2] in
        if (1 <=? numero 0 [a1; a2; a3; a4])
           && (1 <=? mes) && (mes <=? 12) && (1 <=? dia) && (dia <=? 28)
           && (hora <? 24) && (minuto <? 60) && (segundo <? 60)
        then Retorna (DateTime (numero 0 [a1; a2; a3; a4]) mes dia hora minuto segundo 0 None)
        else Levanta ValueError
      else Levanta ValueError
  | _ => Levanta ValueError
  end.

(** ** Further definitions *)

(** The three ways a call ends without a commit. *)
Definition indisponivel (amb : ambiente) (conn_dada : bool) : Prop :=
  (conn_dada = false /\ conecta amb = false)
  \/ cursor_ok amb = false \/ commit_ok amb = false.


(** The class [[\d.]] of [re_valor]. *)
Definition de_valor (c : ascii) : bool := digito c || e_char "." c.

(** An element the in-page script pushes an item for: read without
    failure, with a name and a link. *)
Definition completo (product : elemento) : bool :=
  negb (e_falha product)
  && negb (bool_decide (nome_do_elemento product = ""%string))
  && negb (bool_decide (link_do_elemento product = ""%string)).

(** The keys of a record as [extrair_produtos_pagina] returns it. *)
Definition chaves_extraidas : gset string :=
  list_to_set ["id"; "sku"; "nome"; "preco"; "imagem"; "link";
               "metodo_extracao"; "categoria"; "preco_texto"; "preco_valor";
               "data_scraping"; "status"]%string.

(** *** The pagination script of [detectar_total_paginas] *)

(** Value of a character as a digit in base 10 or 16. *)
Definition valor_na_base (base : Z) (c : ascii) : option Z :=
  let n := Z.of_N (cod c) in
  if (48 <=? n) && (n <=? 57) then Some (n - 48)
  else if (base =? 16) && (97 <=? n) && (n <=? 102) then Some (n - 87)
  else if (base =? 16) && (65 <=? n) && (n <=? 70) then Some (n - 55)
  else None.

(** The values of the longest prefix of digits. *)
Fixpoint prefixo_digitos (base : Z) (s : list ascii) : list Z :=
  match s with
  | c :: t =>
      match valor_na_base base c with
      | Some d => d :: prefixo_digitos base t
      | None => []
      end
  | [] => []
  end.

(** JavaScript's [parseInt(s)] without a radix: leading whitespace, a
    sign, a [0x] prefix, then the longest prefix of digits; [None] is
    [NaN].  The result is the exact integer (a JavaScript number holds
    it exactly below 2^53). *)
Definition parseInt (s : list ascii) : option Z :=
  let s := lstrip js_space s in
  let '(sinal, s) :=
    match s with
    | "-"%char :: t => (-1, t)
    | "+"%char :: t => (1, t)
    | _ => (1, s)
    end in
  let '(base, s) :=
    match s with
    | "0"%char :: "x"%char :: t => (16, t)
    | "0"%char :: "X"%char :: t => (16, t)
    | _ => (10, s)
    end in
  match prefixo_digitos base s with
  | [] => None
  | ds => Some (sinal * fold_left (fun acc d => base * acc + d) ds 0)
  end.

(** What the pagination script reads: the text of every link matched by
    the selector, and the [pagina] parameter of the current URL. *)
Record paginacao_dom := PaginacaoDom {
  rotulos : list string;
  parametro_pagina : option string
}.

(** The [forEach] over the pagination links. *)
Definition maior_rotulo (links : list string) : Z :=
  fold_left
    (fun maxPagina link =>
       match parseInt (txt (js_trim link)) with
       | Some numero => if maxPagina <? numero then numero else maxPagina
       | None => maxPagina
       end)
    links 1.

(** [parseInt(urlParams.get('pagina')) || 1] *)
Definition pagina_atual (parametro : option string) : Z :=
  match parametro with
  | Some s =>
      match parseInt (txt s) with
      | Some n => if n =? 0 then 1 else n
      | None => 1
      end
  | None => 1
  end.

(** The value the script returns. *)
Definition script_paginacao (d : paginacao_dom) : Z :=
  Z.max (maior_rotulo (rotulos d)) (pagina_atual (parametro_pagina d)).

(** *** [CATEGORIAS], [MAX_RETRIES] and [scrape_mestre_parrillero] *)






(** *** The per-category summary and [main] *)

#[global] Instance decimal_countable : Countable decimal.
Proof.
  refine (inj_countable' (fun d => (mant d, casas d))
            (fun x => Decimal x.1 x.2) _).
  by intros [].
Defined.

#[global] Instance datetime_countable : Countable datetime.
Proof.
  refine (inj_countable'
            (fun t => (ano t, mes t, dia t, hora t, minuto t, segundo t, micro t, fuso t))
            (fun x => match x with
                      | (a, b, c, d, e, f, g, h) => DateTime a b c d e f g h
                      end) _).
  by intros [].
Defined.

#[global] Instance valor_py_countable : Countable valor_py.
Proof.
  refine (inj_countable'
            (fun v => match v with
                      | VNone => inl ()
                      | VStr s => inr (inl s)
                      | VNum d => inr (inr (inl d))
                      | VData t => inr (inr (inr t))
                      end)
            (fun x => match x with
                      | inl _ => VNone
                      | inr (inl s) => VStr s
                      | inr (inr (inl d)) => VNum d
                      | inr (inr (inr t)) => VData t
                      end) _).
  by intros [].
Defined.

(** [p.get('categoria', 'Sem categoria')] *)
Definition categoria_de (p : produto) : valor_py :=
  get p "categoria" (VStr "Sem categoria").

(** The loop [resumo[cat] = resumo.get(cat, 0) + 1]. *)
Fixpoint contar_categorias (produtos : list produto)
    (resumo : gmap valor_py nat) : gmap valor_py nat :=
  match produtos with
  | [] => resumo
  | p :: resto =>
      let cat := categoria_de p in
      contar_categorias resto (<[cat := (default 0%nat (resumo !! cat) + 1)%nat]> resumo)
  end.

Definition resumo_por_categoria (produtos : list produto) : gmap valor_py nat :=
  contar_categorias produtos ∅.

(** Sum of the counts of a summary. *)
Definition soma_resumo (resumo : gmap valor_py nat) : nat :=
  map_fold (fun _ n acc => (n + acc)%nat) 0%nat resumo.




Section Main.

Variable fromisoformat : list ascii -> py datetime.


End Main.

(** ** Sample inputs *)

(** A listing element with a name, a link in its first anchor and a
    sale price. *)
Definition elemento_ex (nome link preco : string) : elemento :=
  Elemento false (Some nome) None (Some link) (Some preco) None None None
    "listagem-item prod-id-42" None.

(** An element without a [.nome-produto] child, and one whose reading
    throws. *)
Definition elemento_sem_nome : elemento :=
  Elemento false None None (Some "https://loja/sem-nome") None None None None "" None.

Definition elemento_quebrado : elemento :=
  Elemento true (Some "Grelha") None (Some "https://loja/grelha") None None None None "" None.

Definition cat_ex : categoria :=
  Categoria "Bancada" "https://www.lojamestreparrillero.com.br/bancada" "bancada".

(** A site that answers every request, detects [detectado] pages and
    shows the given elements page by page. *)
Definition mundo_ex (paginas : list (list elemento)) (detectado : Z) : mundo :=
  Mundo (Retorna 200) (Retorna ()) (Retorna detectado) (fun _ => Retorna ())
    (fun n => Retorna (default [] (paginas !! Z.to_nat (n - 1))))
    (fun _ => "2025-01-27T10:00:00"%string).

(** Three pages detected with the second one empty; and two pages with
    the first one empty. *)
Definition mundo_segunda_vazia : mundo :=
  mundo_ex [[elemento_ex "Parrilla" "https://loja/parrilla" "R$ 7.450,00"];
            [];
            [elemento_ex "Grelha" "https://loja/grelha" "R$ 99,90"]] 3.

Definition mundo_primeira_vazia : mundo :=
  mundo_ex [[]; [elemento_ex "Grelha" "https://loja/grelha" "R$ 99,90"]] 2.

(** A record as the crawl hands it to the persister. *)
Definition produto_ex (link data : string) : produto :=
  <["id" := VStr "42"]>
  (<["sku" := VStr ""]>
  (<["nome" := VStr "Parrilla"]>
  (<["preco_texto" := VStr "R$ 7.450,00"]>
  (<["preco_valor" := VNum (Decimal 745000 2)]>
  (<["imagem" := VStr ""]>
  (<["link" := VStr link]>
  (<["categoria" := VStr "Bancada"]>
  (<["status" := VStr "Disponível"]>
  (<["fonte" := VStr "https://www.lojamestreparrillero.com.br/bancada"]>
  (<["data_scraping" := VStr data]> ∅)))))))))).

(** The values bound for [produto_ex link "2025-01-27T10:00:00"]. *)
Definition parametros_ex (link : string) : parametros :=
  Parametros (VStr "42") (VStr "") (VStr "Parrilla") (VStr "R$ 7.450,00")
    (VNum (Decimal 745000 2)) (VStr "") (VStr link) (VStr "Bancada")
    (VStr "Disponível") (VStr "https://www.lojamestreparrillero.com.br/bancada")
    (VData (DateTime 2025 1 27 10 0 0 0 None)).

Definition amb_ex (agora : Z) : ambiente := Ambiente true true true agora.

(** The record extraction returns for
    [elemento_ex " Parrilla  " "https://loja/parrilla" "R$ 7.450,00"]. *)
Definition registro_ex : produto :=
  <["status" := VStr "Disponível"]>
  (<["data_scraping" := VStr "2025-01-27T10:00:00"]>
  (<["preco_valor" := VNum (Decimal 745000 2)]>
  (<["preco_texto" := VStr "R$ 7.450,00"]>
  (<["categoria" := VStr "Bancada"]>
  (<["id" := VStr "42"]>
  (<["sku" := VStr ""]>
  (<["nome" := VStr "Parrilla"]>
  (<["preco" := VStr "R$ R$ 7.450,00"]>
  (<["imagem" := VStr ""]>
  (<["link" := VStr "https://loja/parrilla"]>
  (<["metodo_extracao" := VStr ".listagem-item"]> ∅))))))))))).

(** ** Proof automation *)

Ltac inverte H := inversion H; subst; clear H.

Ltac inv_pertence :=
  repeat match goal with
  | H : pertence (Cls _) _ |- _ => inverte H
  | H : pertence (Cat _ _) _ |- _ => inverte H
  | H : pertence (Plus _) _ |- _ => inverte H
  | H : pertence (Rep _ _) _ |- _ => inverte H
  end.

(** * Properties *)

(** ** The matcher *)

Lemma star_m_correto (m : list ascii -> list (list ascii)) (r : regex) :
  (forall s s1, s1 ∈ m s -> exists w, s = w ++ s1 /\ pertence r w) ->
  forall fuel s s1, s1 ∈ star_m m fuel s ->
    exists w, s = w ++ s1 /\ pertence (Star r) w.
Proof.
  intros Hm fuel. induction fuel as [|f IH]; intros s s1 Hin; simpl in Hin.
  - apply list_elem_of_singleton in Hin. subst.
    exists []. split; [reflexivity | constructor].
  - apply elem_of_app in Hin. destruct Hin as [Hin | Hin].
    + apply list_elem_of_bind in Hin. destruct Hin as (s2 & Hin1 & Hin2).
      apply list_elem_of_filter in Hin2. destruct Hin2 as [_ Hin2].
      destruct (Hm _ _ Hin2) as (w1 & -> & Hw1).
      destruct (IH _ _ Hin1) as (w2 & -> & Hw2).
      exists (w1 ++ w2). split; [by rewrite app_assoc | by constructor].
    + apply list_elem_of_singleton in Hin. subst.
      exists []. split; [reflexivity | constructor].
Qed.

Lemma rep_m_correto (m : list ascii -> list (list ascii)) (r : regex) :
  (forall s s1, s1 ∈ m s -> exists w, s = w ++ s1 /\ pertence r w) ->
  forall n s s1, s1 ∈ rep_m m n s ->
    exists w, s = w ++ s1 /\ pertence (Rep n r) w.
Proof.
  intros Hm n. induction n as [|n IH]; intros s s1 Hin; simpl in Hin.
  - apply list_elem_of_singleton in Hin. subst.
    exists []. split; [reflexivity | constructor].
  - apply list_elem_of_bind in Hin. destruct Hin as (s2 & Hin1 & Hin2).
    destruct (Hm _ _ Hin2) as (w1 & -> & Hw1).
    destruct (IH _ _ Hin1) as (w2 & -> & Hw2).
    exists (w1 ++ w2). split; [by rewrite app_assoc | by constructor].
Qed.

(** Every remainder the matcher returns is what follows a word of the
    language at the start of the input. *)
Lemma restos_correto r :
  forall s s1, s1 ∈ restos r s -> exists w, s = w ++ s1 /\ pertence r w.
Proof.
  induction r as [p | r1 IH1 r2 IH2 | r IH | r IH | n r IH]; intros s s1 Hin; simpl in Hin.
  - destruct s as [|c t]; [by apply elem_of_nil in Hin |].
    destruct (p c) eqn:Hp; [| by apply elem_of_nil in Hin].
    apply list_elem_of_singleton in Hin. subst.
    exists [c]. split; [reflexivity | by constructor].
  - apply list_elem_of_bind in Hin. destruct Hin as (s2 & Hin1 & Hin2).
    destruct (IH1 _ _ Hin2) as (w1 & -> & Hw1).
    destruct (IH2 _ _ Hin1) as (w2 & -> & Hw2).
    exists (w1 ++ w2). split; [by rewrite app_assoc | by constructor].
  - eapply star_m_correto; eauto.
  - apply list_elem_of_bind in Hin. destruct Hin as (s2 & Hin1 & Hin2).
    destruct (IH _ _ Hin2) as (w1 & -> & Hw1).
    destruct (star_m_correto _ _ IH _ _ _ Hin1) as (w2 & -> & Hw2).
    exists (w1 ++ w2). split; [by rewrite app_assoc | by constructor].
  - eapply rep_m_correto; eauto.
Qed.

Lemma casa_correto r s s1 :
  casa r s = Some s1 -> exists w, s = w ++ s1 /\ pertence r w /\ w <> [].
Proof.
  unfold casa. intros H. apply head_Some_elem_of in H.
  apply list_elem_of_filter in H. destruct H as [Hlt Hin].
  destruct (restos_correto _ _ _ Hin) as (w & -> & Hw).
  exists w. repeat split; auto. intros ->. unfold mais_curto in Hlt. simpl in Hlt. lia.
Qed.

Lemma re_search_eq r s :
  re_search r s =
  match casa r s with
  | Some s1 => Some (take (length s - length s1) s)
  | None => match s with
            | _ :: t => re_search r t
            | [] => None
            end
  end.
Proof. destruct s; reflexivity. Qed.

(** A match reported by [re_search] is a word of the language that
    occurs in the input. *)
Lemma re_search_correto r s v :
  re_search r s = Some v -> exists u s1, s = u ++ v ++ s1 /\ pertence r v.
Proof.
  revert v. induction s as [|c t IH]; intros v; rewrite re_search_eq;
    destruct (casa _ _) as [s1|] eqn:Hc; try discriminate.
  - intros _. destruct (casa_correto _ _ _ Hc) as (w & Hs & _ & Hne).
    destruct w; [congruence | discriminate].
  - intros [= <-]. destruct (casa_correto _ _ _ Hc) as (w & Hs & Hw & _).
    exists [], s1. change (S (length t)) with (length (c :: t)).
    rewrite Hs. rewrite length_app.
    replace (length w + length s1 - length s1)%nat with (length w) by lia.
    rewrite take_app_length. split; [reflexivity | exact Hw].
  - intros H. destruct (IH _ H) as (u & s1 & -> & Hw).
    exists (c :: u), s1. split; [reflexivity | exact Hw].
Qed.

(** When no word of the language occurs in the input, [re_search] finds
    nothing. *)
Lemma re_search_nada r s :
  (forall u v s1, s = u ++ v ++ s1 -> ~ pertence r v) -> re_search r s = None.
Proof.
  intros H. destruct (re_search r s) as [v|] eqn:Hs; [| reflexivity].
  destruct (re_search_correto _ _ _ Hs) as (u & s1 & Heq & Hw).
  exfalso. eapply H; eauto.
Qed.

(** ** The price parser *)

Example limpar_preco_ex1 :
  limpar_preco "R$ 7.450,00" = Retorna (PrecoInfo "R$ 7.450,00" (Some (Decimal 745000 2))).
Proof. vm_compute. reflexivity. Qed.

Example limpar_preco_ex2 :
  limpar_preco "  12x   de R$ 9,9 " = Retorna (PrecoInfo "12x de R$ 9,9" None).
Proof. vm_compute. reflexivity. Qed.

(** C7, as stated: the text returned for the sentinel is not
    ["Consult price"]. *)
Lemma limpar_preco_texto_sentinela :
  limpar_preco "Consultar" <> Retorna (PrecoInfo "Consult price" None).
Proof. vm_compute. discriminate. Qed.

(** C7, amended: [limpar_preco "R$ R$ 1.510,40"] returns the text
    ["R$ 1.510,40"] with the value 1510.40, and both the sentinel
    ["Consultar"] and the empty string return the text ["Consultar"]
    with no value. *)
Theorem limpar_preco_exemplos :
  limpar_preco "R$ R$ 1.510,40"
    = Retorna (PrecoInfo "R$ 1.510,40" (Some (Decimal 151040 2)))
  /\ limpar_preco "Consultar" = Retorna (PrecoInfo "Consultar" None)
  /\ limpar_preco "" = Retorna (PrecoInfo "Consultar" None).
Proof. repeat split; vm_compute; reflexivity. Qed.

Lemma digito_nao_pontua c :
  digito c = true -> Ascii.eqb c "." = false /\ Ascii.eqb c "," = false.
Proof.
  destruct c as [[] [] [] [] [] [] [] []]; vm_compute; intros H;
    (discriminate H || (split; reflexivity)).
Qed.

Lemma valor_digito_nao_negativo c : digito c = true -> 0 <= valor_digito c.
Proof.
  unfold digito, valor_digito. intros H.
  apply andb_prop in H. destruct H as [H _]. apply N.leb_le in H. lia.
Qed.

Lemma numero_nao_negativo ds :
  forall acc, 0 <= acc -> forallb digito ds = true -> 0 <= numero acc ds.
Proof.
  induction ds as [|c t IH]; intros acc Hacc Hds; simpl in *; [exact Hacc |].
  apply andb_prop in Hds. destruct Hds as [Hc Ht].
  apply IH; [| exact Ht]. pose proof (valor_digito_nao_negativo c Hc). lia.
Qed.

Lemma pertence_star_cls p w : pertence (Star (Cls p)) w -> forallb p w = true.
Proof.
  remember (Star (Cls p)) as r eqn:Hr. intros H.
  induction H as [| | | r0 w1 w2 H1 _ H2 IH2 | | |]; try discriminate.
  - reflexivity.
  - injection Hr as ->. inv_pertence. simpl.
    rewrite IH2 by reflexivity. rewrite andb_true_r. assumption.
Qed.

Lemma pertence_plus_cls p w :
  pertence (Plus (Cls p)) w -> forallb p w = true /\ w <> [].
Proof.
  intros H. inv_pertence. simpl. split; [| discriminate].
  apply andb_true_intro. split; [assumption | by apply pertence_star_cls].
Qed.

Lemma pertence_rep2_cls p w :
  pertence (Rep 2 (Cls p)) w ->
  exists d1 d2, w = [d1; d2] /\ p d1 = true /\ p d2 = true.
Proof.
  intros H. inv_pertence. eexists _, _. split; [reflexivity | by split].
Qed.

(** The words of [re_valor]: digits and dots, a comma, two digits. *)
Lemma pertence_re_valor v :
  pertence re_valor v ->
  exists w d1 d2, v = w ++ ["," ; d1; d2]%char
    /\ forallb (fun c => digito c || e_char "." c) w = true /\ w <> []
    /\ digito d1 = true /\ digito d2 = true.
Proof.
  unfold re_valor, Lit. intros H.
  inversion H as [| r1 r2 w1 w2 H1 H2 | | | | |]; subst; clear H.
  inversion H2 as [| r1 r2 w3 w4 H3 H4 | | | | |]; subst; clear H2.
  apply pertence_plus_cls in H1. destruct H1 as [Hw Hne].
  apply pertence_rep2_cls in H4. destruct H4 as (d1 & d2 & -> & Hd1 & Hd2).
  inversion H3 as [p c Hc | | | | | |]; subst; clear H3.
  unfold e_char in Hc. apply Ascii.eqb_eq in Hc. subst c.
  exists w1, d1, d2. repeat split; auto.
Qed.

(** The text given to [float] for a word of [re_valor]. *)
Lemma literal_do_valor w d1 d2 :
  forallb (fun c => digito c || e_char "." c) w = true ->
  digito d1 = true -> digito d2 = true ->
  exists ds, forallb digito ds = true
    /\ replace "," (txt ".") (replace "." [] (w ++ ["," ; d1; d2]%char))
       = ds ++ ["." ; d1; d2]%char.
Proof.
  intros Hw Hd1 Hd2.
  destruct (digito_nao_pontua _ Hd1) as [Hp1 Hv1].
  destruct (digito_nao_pontua _ Hd2) as [Hp2 Hv2].
  induction w as [|c t IH]; cbn [forallb replace app] in *.
  - exists []. split; [reflexivity |]. rewrite Hp1, Hp2.
    change (("," =? ".")%char) with false. cbn [replace app].
    rewrite Hv1, Hv2. reflexivity.
  - apply andb_prop in Hw. destruct Hw as [Hc Ht].
    destruct (IH Ht) as (ds & Hds & Heq).
    destruct (digito c) eqn:Hdc.
    + destruct (digito_nao_pontua _ Hdc) as [Hpc Hvc].
      rewrite Hpc. cbn [replace app]. rewrite Hvc. cbn [app]. rewrite Heq.
      exists (c :: ds). split; [| reflexivity]. cbn [forallb]. by rewrite Hdc.
    + cbn [orb] in Hc. unfold e_char in Hc. apply Ascii.eqb_eq in Hc. subst c.
      exists ds. by split.
Qed.

Lemma ate_ponto_digitos ds f :
  forallb digito ds = true -> ate_ponto (ds ++ "."%char :: f) = (ds, Some f).
Proof.
  induction ds as [|c t IH]; simpl; intros H; [reflexivity |].
  apply andb_prop in H. destruct H as [Hc Ht].
  destruct (digito_nao_pontua _ Hc) as [-> _]. by rewrite (IH Ht).
Qed.

Lemma py_float_duas_casas ds d1 d2 :
  forallb digito ds = true -> digito d1 = true -> digito d2 = true ->
  py_float (ds ++ ["." ; d1; d2]%char)
  = Retorna (Decimal (numero 0 (ds ++ [d1; d2])) 2).
Proof.
  intros Hds Hd1 Hd2. unfold py_float. rewrite (ate_ponto_digitos _ _ Hds).
  simpl. unfold todos_digitos. rewrite Hds. simpl. rewrite Hd1, Hd2. simpl.
  replace (length ds + 2 =? 0)%nat with false; [reflexivity |].
  symmetry. apply Nat.eqb_neq. lia.
Qed.

Lemma limpar_preco_eq (preco_str : string) :
  preco_str <> ""%string -> preco_str <> "Consultar"%string ->
  limpar_preco preco_str =
  match re_search re_valor (preco_limpo_de (txt preco_str)) with
  | Some valor_str =>
      match py_float (replace "," (txt ".") (replace "." [] valor_str)) with
      | Retorna valor_float =>
          Retorna (PrecoInfo (str (preco_limpo_de (txt preco_str))) (Some valor_float))
      | Levanta e => Levanta e
      end
  | None => Retorna (PrecoInfo (str (preco_limpo_de (txt preco_str))) None)
  end.
Proof.
  intros H1 H2. unfold limpar_preco.
  rewrite (bool_decide_eq_false_2 _ H1), (bool_decide_eq_false_2 _ H2).
  reflexivity.
Qed.

(** Outside the sentinel branch the returned text is the cleaned text. *)
Lemma limpar_preco_forma (preco_str : string) :
  preco_str <> ""%string -> preco_str <> "Consultar"%string ->
  exists v, limpar_preco preco_str
            = Retorna (PrecoInfo (str (preco_limpo_de (txt preco_str))) v)
    /\ (v = None \/ exists d, v = Some d /\ casas d = 2%nat /\ 0 <= mant d)
    /\ ((forall u w s1, preco_limpo_de (txt preco_str) = u ++ w ++ s1 ->
                        ~ pertence re_valor w) -> v = None).
Proof.
  intros H1 H2. rewrite (limpar_preco_eq _ H1 H2).
  destruct (re_search re_valor _) as [v|] eqn:Hs.
  - destruct (re_search_correto _ _ _ Hs) as (u & s1 & Heq & Hv).
    destruct (pertence_re_valor _ Hv) as (w & d1 & d2 & -> & Hw & _ & Hd1 & Hd2).
    destruct (literal_do_valor _ _ _ Hw Hd1 Hd2) as (ds & Hds & ->).
    rewrite (py_float_duas_casas _ _ _ Hds Hd1 Hd2).
    eexists. split; [reflexivity |]. split.
    + right. eexists. split; [reflexivity |]. split; [reflexivity |]. simpl.
      apply numero_nao_negativo; [lia |].
      rewrite forallb_app, Hds. simpl. by rewrite Hd1, Hd2.
    + intros Hnada. exfalso. eapply Hnada; eauto.
  - eexists. split; [reflexivity |]. split; [by left | done].
Qed.

Lemma limpar_preco_retorna (preco_str : string) :
  exists info, limpar_preco preco_str = Retorna info.
Proof.
  destruct (decide (preco_str = ""%string)) as [-> | H1]; [by eexists |].
  destruct (decide (preco_str = "Consultar"%string)) as [-> | H2]; [by eexists |].
  destruct (limpar_preco_forma _ H1 H2) as (v & -> & _). by eexists.
Qed.

(** C8: [limpar_preco] returns on every input; the value is absent or
    a non-negative decimal with exactly two fractional digits; and when
    the cleaned text has no numeric substring, the result is the cleaned
    text with no value. *)
Theorem limpar_preco_total (preco_str : string) :
  exists info, limpar_preco preco_str = Retorna info
    /\ (valor info = None
        \/ exists d, valor info = Some d /\ casas d = 2%nat /\ 0 <= mant d)
    /\ (preco_str <> ""%string -> preco_str <> "Consultar"%string ->
        (forall u v s1, preco_limpo_de (txt preco_str) = u ++ v ++ s1 ->
                        ~ pertence re_valor v) ->
        info = PrecoInfo (str (preco_limpo_de (txt preco_str))) None).
Proof.
  destruct (decide (preco_str = ""%string)) as [-> | H1].
  { eexists. split; [reflexivity |]. split; [by left | congruence]. }
  destruct (decide (preco_str = "Consultar"%string)) as [-> | H2].
  { eexists. split; [reflexivity |]. split; [by left | congruence]. }
  destruct (limpar_preco_forma _ H1 H2) as (v & -> & Hv & Hnada).
  eexists. split; [reflexivity |]. split; [exact Hv |].
  intros _ _ Hn. by rewrite (Hnada Hn).
Qed.

(** At a price without a numeric substring the hypotheses of
    [limpar_preco_total] hold and the cleaned text comes back. *)
Lemma limpar_preco_total_witness :
  limpar_preco "sob  consulta" = Retorna (PrecoInfo "sob consulta" None).
Proof.
  destruct (limpar_preco_total "sob  consulta") as (info & Heq & _ & Hn).
  rewrite Heq. f_equal. rewrite Hn; [vm_compute; reflexivity | discriminate | discriminate |].
  intros u v s1 Hs Hv.
  destruct (pertence_re_valor _ Hv) as (w & d1 & d2 & -> & _ & _ & _ & _).
  assert (Hnin : ","%char ∉ preco_limpo_de (txt "sob  consulta")).
  { apply (bool_decide_unpack _). vm_compute. exact I. }
  apply Hnin. rewrite Hs. rewrite !elem_of_app. right. left. right. left.
Defined.

(** *** Duplicated currency symbol *)

Lemma py_space_nao_cifrao c :
  py_space c = true -> e_char "R" c = false /\ e_char "$" c = false.
Proof.
  destruct c as [[] [] [] [] [] [] [] []]; vm_compute; intros H;
    (discriminate H || (split; reflexivity)).
Qed.

Lemma e_char_eq a c : e_char a c = true -> c = a.
Proof. unfold e_char. intros H. apply Ascii.eqb_eq in H. by subst. Qed.

Lemma e_char_refl a : e_char a a = true.
Proof. unfold e_char. apply Ascii.eqb_refl. Qed.

Lemma filter_mais_curto_cons c t :
  filter (mais_curto (c :: t)) [t] = [t].
Proof.
  rewrite filter_cons. rewrite decide_True; [reflexivity |].
  unfold mais_curto. simpl. lia.
Qed.

Lemma restos_cls p c t : restos (Cls p) (c :: t) = if p c then [t] else [].
Proof. reflexivity. Qed.

Lemma restos_cat r1 r2 s : restos (Cat r1 r2) s = restos r1 s ≫= restos r2.
Proof. reflexivity. Qed.

Lemma restos_star r s : restos (Star r) s = star_m (restos r) (length s) s.
Proof. reflexivity. Qed.

Lemma restos_plus r s :
  restos (Plus r) s = s1 ← restos r s; star_m (restos r) (length s1) s1.
Proof. reflexivity. Qed.

Lemma star_m_S m f s :
  star_m m (S f) s = (filter (mais_curto s) (m s) ≫= star_m m f) ++ [s].
Proof. reflexivity. Qed.

Lemma restos_lit a c t : restos (Lit a) (c :: t) = if e_char a c then [t] else [].
Proof. reflexivity. Qed.

(** After a run of whitespace [ws], the only way on for [\s*R\$] is to
    take the whole run. *)
Lemma star_espacos_cifrao ws t fuel :
  forallb py_space ws = true -> (length ws <= fuel)%nat ->
  star_m (restos (Cls py_space)) fuel (ws ++ "R"%char :: "$"%char :: t)
    ≫= restos (Cat (Lit "R") (Lit "$")) = [t].
Proof.
  assert (Hfim : restos (Cat (Lit "R") (Lit "$")) ("R"%char :: "$"%char :: t) = [t]).
  { rewrite restos_cat, restos_lit, e_char_refl, bind_singleton.
    by rewrite restos_lit, e_char_refl. }
  revert fuel. induction ws as [|c ws IH]; intros fuel Hws Hf.
  - cbn [app]. destruct fuel as [|f].
    + cbn [star_m]. rewrite bind_singleton. exact Hfim.
    + rewrite star_m_S, restos_cls.
      replace (if py_space "R" then ["$"%char :: t] else [])
        with (@nil (list ascii)) by reflexivity.
      rewrite filter_nil. cbn [mbind list_bind app]. rewrite app_nil_r. exact Hfim.
  - cbn [forallb] in Hws. apply andb_prop in Hws. destruct Hws as [Hc Hws].
    destruct fuel as [|f]; [simpl in Hf; lia |].
    cbn [app]. rewrite star_m_S, restos_cls, Hc.
    rewrite filter_mais_curto_cons, bind_singleton, bind_app, bind_singleton.
    rewrite IH; [| exact Hws | simpl in Hf; lia].
    rewrite restos_cat, restos_lit.
    destruct (py_space_nao_cifrao _ Hc) as [-> _]. reflexivity.
Qed.

Lemma casa_cifrao_duplo ws t :
  forallb py_space ws = true ->
  casa re_cifrao_duplo ("R"%char :: "$"%char :: ws ++ "R"%char :: "$"%char :: t)
  = Some t.
Proof.
  intros Hws. unfold casa, re_cifrao_duplo.
  rewrite restos_cat, restos_lit, e_char_refl, bind_singleton.
  rewrite restos_cat, restos_lit, e_char_refl, bind_singleton.
  rewrite restos_cat, restos_star.
  rewrite star_espacos_cifrao; [| exact Hws | rewrite length_app; lia].
  rewrite filter_cons. rewrite decide_True; [reflexivity |].
  unfold mais_curto. simpl. rewrite length_app. simpl. lia.
Qed.

Lemma re_sub_aux_S f r repl c t :
  re_sub_aux (S f) r repl (c :: t) =
  match casa r (c :: t) with
  | Some s1 => repl ++ re_sub_aux f r repl s1
  | None => c :: re_sub_aux f r repl t
  end.
Proof. reflexivity. Qed.

Lemma re_sub_aux_nil f r repl : re_sub_aux f r repl [] = [].
Proof. destruct f; reflexivity. Qed.

(** A match of [R\$\s*R\$] starts with the currency symbol. *)
Lemma casa_cifrao_comeca s s1 :
  casa re_cifrao_duplo s = Some s1 -> comeca_com (txt "R$") s = true.
Proof.
  intros H. destruct (casa_correto _ _ _ H) as (w & -> & Hw & _).
  unfold re_cifrao_duplo, Lit in Hw.
  inversion Hw as [| r1 r2 w1 w2 H1 H2 | | | | |]; subst; clear Hw.
  inversion H2 as [| r1 r2 w3 w4 H3 H4 | | | | |]; subst; clear H2.
  inversion H1 as [p c Hc | | | | | |]; subst; clear H1.
  inversion H3 as [p d Hd | | | | | |]; subst; clear H3.
  apply e_char_eq in Hc, Hd. subst. reflexivity.
Qed.

(** Without an occurrence of the symbol, [re.sub] changes nothing. *)
Lemma re_sub_sem_cifrao repl s :
  ocorrencias (txt "R$") s = 0%nat ->
  forall fuel, re_sub_aux fuel re_cifrao_duplo repl s = s.
Proof.
  induction s as [|c t IH]; intros Hoc fuel; [apply re_sub_aux_nil |].
  destruct fuel as [|f]; [reflexivity |].
  rewrite re_sub_aux_S. cbn [ocorrencias] in Hoc.
  destruct (casa re_cifrao_duplo (c :: t)) as [s1|] eqn:Hc.
  - apply casa_cifrao_comeca in Hc. rewrite Hc in Hoc. discriminate.
  - rewrite IH; [reflexivity | lia].
Qed.

Lemma re_sub_cifrao_duplo ws resto :
  forallb py_space ws = true -> ocorrencias (txt "R$") resto = 0%nat ->
  re_sub re_cifrao_duplo (txt "R$")
    (txt "R$" ++ ws ++ txt "R$" ++ resto) = txt "R$" ++ resto.
Proof.
  intros Hws Hoc. unfold re_sub. cbn [list_ascii_of_string app length].
  rewrite re_sub_aux_S, (casa_cifrao_duplo _ _ Hws).
  by rewrite re_sub_sem_cifrao.
Qed.

(** *** Whitespace *)

Lemma lstrip_length esp s : (length (lstrip esp s) <= length s)%nat.
Proof.
  induction s as [|c t IH]; simpl; [lia |]. destruct (esp c); simpl; lia.
Qed.

Lemma lstrip_partes esp s :
  exists l, s = l ++ lstrip esp s /\ forallb esp l = true.
Proof.
  induction s as [|c t (l & Hl & Hesp)]; simpl.
  - exists []. by split.
  - destruct (esp c) eqn:Hc.
    + exists (c :: l). split; [simpl; congruence | simpl; by rewrite Hc].
    + exists []. by split.
Qed.

Lemma lstrip_sem_espaco s : comeca_com_espaco (lstrip py_space s) = false.
Proof.
  induction s as [|c t IH]; simpl; [reflexivity |].
  destruct (py_space c) eqn:Hc; [exact IH | simpl; exact Hc].
Qed.

Lemma head_app_some {A} (l k : list A) x : head l = Some x -> head (l ++ k) = Some x.
Proof. destruct l; [discriminate | by intros [= ->]]. Qed.

Lemma head_star_espacos t :
  forall fuel, (length t <= fuel)%nat ->
  head (star_m (restos (Cls py_space)) fuel t) = Some (lstrip py_space t).
Proof.
  induction t as [|c t IH]; intros fuel Hf.
  - destruct fuel; reflexivity.
  - destruct fuel as [|f]; [simpl in Hf; lia |].
    rewrite star_m_S, restos_cls. cbn [lstrip].
    destruct (py_space c).
    + rewrite filter_mais_curto_cons, bind_singleton.
      apply head_app_some, IH. simpl in Hf. lia.
    + rewrite filter_nil. reflexivity.
Qed.

Lemma head_filter_some {A} (P : A -> Prop) `{!forall x, Decision (P x)} (l : list A) x :
  head l = Some x -> P x -> head (filter P l) = Some x.
Proof.
  destruct l as [|y l]; [discriminate |]. intros [= ->] HP.
  rewrite filter_cons. by rewrite decide_True.
Qed.

(** [\s+] at the start of a text takes the whole run of whitespace. *)
Lemma casa_espacos c t :
  casa re_espacos (c :: t) = if py_space c then Some (lstrip py_space t) else None.
Proof.
  unfold casa, re_espacos. rewrite restos_plus, restos_cls.
  destruct (py_space c).
  - rewrite bind_singleton. apply head_filter_some.
    + by apply head_star_espacos.
    + unfold mais_curto. pose proof (lstrip_length py_space t). simpl. lia.
  - reflexivity.
Qed.

Lemma sub_espacos_S f c t :
  re_sub_aux (S f) re_espacos (txt " ") (c :: t) =
  if py_space c then " "%char :: re_sub_aux f re_espacos (txt " ") (lstrip py_space t)
  else c :: re_sub_aux f re_espacos (txt " ") t.
Proof. rewrite re_sub_aux_S, casa_espacos. by destruct (py_space c). Qed.

(** The first character after collapsing: a space when the text started
    with whitespace, the first character itself otherwise. *)
Lemma sub_espacos_head fuel s :
  (length s <= fuel)%nat ->
  head (re_sub_aux fuel re_espacos (txt " ") s)
  = (fun c => if py_space c then " "%char else c) <$> head s.
Proof.
  intros Hf. destruct s as [|c t]; [by rewrite re_sub_aux_nil |].
  destruct fuel as [|f]; [simpl in Hf; lia |].
  rewrite sub_espacos_S. simpl. by destruct (py_space c).
Qed.

Lemma comeca_cifrao_head s :
  comeca_com (txt "$") s = from_option (e_char "$") false (head s).
Proof. destruct s as [|d t]; [reflexivity |]. simpl. apply andb_true_r. Qed.

Lemma ocorrencias_cifrao_cons c t :
  ocorrencias (txt "R$") (c :: t)
  = ((if e_char "R" c && from_option (e_char "$") false (head t) then 1 else 0)
     + ocorrencias (txt "R$") t)%nat.
Proof.
  cbn [ocorrencias]. f_equal.
  change (comeca_com (txt "R$") (c :: t))
    with (e_char "R" c && comeca_com (txt "$") t).
  by rewrite comeca_cifrao_head.
Qed.

Lemma ocorrencias_lstrip s :
  ocorrencias (txt "R$") (lstrip py_space s) = ocorrencias (txt "R$") s.
Proof.
  induction s as [|c t IH]; [reflexivity |]. cbn [lstrip].
  destruct (py_space c) eqn:Hc; [| reflexivity].
  rewrite IH, ocorrencias_cifrao_cons.
  by destruct (py_space_nao_cifrao _ Hc) as [-> _].
Qed.

(** Collapsing whitespace keeps every occurrence of the currency symbol. *)
Lemma sub_espacos_ocorrencias fuel :
  forall s, (length s <= fuel)%nat ->
  ocorrencias (txt "R$") (re_sub_aux fuel re_espacos (txt " ") s)
  = ocorrencias (txt "R$") s.
Proof.
  induction fuel as [|f IH]; intros s Hf; [reflexivity |].
  destruct s as [|c t]; [reflexivity |]. simpl in Hf.
  rewrite sub_espacos_S. destruct (py_space c) eqn:Hc.
  - rewrite !ocorrencias_cifrao_cons.
    destruct (py_space_nao_cifrao _ Hc) as [-> _].
    change (e_char "R" " ") with false. cbn [andb Nat.add].
    rewrite IH; [apply ocorrencias_lstrip |].
    pose proof (lstrip_length py_space t). lia.
  - rewrite !ocorrencias_cifrao_cons. rewrite IH by lia.
    rewrite sub_espacos_head by lia. do 2 f_equal.
    destruct t as [|d t]; [reflexivity |]. simpl.
    destruct (py_space d) eqn:Hd; [| reflexivity].
    by destruct (py_space_nao_cifrao _ Hd) as [_ ->].
Qed.

Lemma comeca_com_espaco_head s :
  comeca_com_espaco s = from_option py_space false (head s).
Proof. by destruct s. Qed.

(** Collapsing leaves whitespace in normal form. *)
Lemma sub_espacos_simples fuel :
  forall s, (length s <= fuel)%nat ->
  espacos_simples (re_sub_aux fuel re_espacos (txt " ") s) = true.
Proof.
  induction fuel as [|f IH]; intros s Hf.
  - destruct s; [reflexivity | simpl in Hf; lia].
  - destruct s as [|c t]; [reflexivity |]. simpl in Hf.
    rewrite sub_espacos_S. destruct (py_space c) eqn:Hc; cbn [espacos_simples].
    + pose proof (lstrip_length py_space t).
      rewrite IH by lia. rewrite andb_true_r.
      rewrite comeca_com_espaco_head, sub_espacos_head by lia.
      pose proof (lstrip_sem_espaco t) as Hl.
      rewrite comeca_com_espaco_head in Hl.
      destruct (head (lstrip py_space t)) as [d|]; [| reflexivity].
      simpl in Hl. simpl. by rewrite Hl, Hl.
    + rewrite Hc, IH by lia. reflexivity.
Qed.

Lemma forallb_rev_true {A} (f : A -> bool) l :
  forallb f l = true -> forallb f (rev l) = true.
Proof.
  rewrite !forallb_forall. intros H x Hx. apply H. by apply in_rev.
Qed.

(** [strip] removes a run of whitespace at each end. *)
Lemma strip_partes esp s :
  exists l r, s = l ++ strip esp s ++ r
    /\ forallb esp l = true /\ forallb esp r = true.
Proof.
  destruct (lstrip_partes esp s) as (l & Hl & Hesp).
  destruct (lstrip_partes esp (rev (lstrip esp s))) as (l' & Hl' & Hesp').
  exists l, (rev l'). split; [| split; [exact Hesp | by apply forallb_rev_true]].
  unfold strip. rewrite <- rev_app_distr, <- Hl', rev_involutive. exact Hl.
Qed.

Lemma ocorrencias_apos_espacos l s :
  forallb py_space l = true ->
  ocorrencias (txt "R$") (l ++ s) = ocorrencias (txt "R$") s.
Proof.
  induction l as [|c l IH]; intros H; [reflexivity |].
  cbn [forallb] in H. apply andb_prop in H. destruct H as [Hc Hl].
  cbn [app]. rewrite ocorrencias_cifrao_cons, (IH Hl).
  by destruct (py_space_nao_cifrao _ Hc) as [-> _].
Qed.

Lemma ocorrencias_antes_espacos s r :
  forallb py_space r = true ->
  ocorrencias (txt "R$") (s ++ r) = ocorrencias (txt "R$") s.
Proof.
  intros Hr. induction s as [|c s IH].
  - cbn [app]. rewrite <- (app_nil_r r). by rewrite ocorrencias_apos_espacos.
  - cbn [app]. rewrite !ocorrencias_cifrao_cons, IH. do 3 f_equal.
    destruct s as [|d s]; [| reflexivity]. cbn [app].
    destruct r as [|d r]; [reflexivity |]. cbn [forallb] in Hr.
    apply andb_prop in Hr. destruct Hr as [Hd _]. simpl.
    by destruct (py_space_nao_cifrao _ Hd) as [_ ->].
Qed.

Lemma espacos_simples_app a b :
  espacos_simples (a ++ b) = true ->
  espacos_simples a = true /\ espacos_simples b = true.
Proof.
  induction a as [|c a IH]; cbn [app espacos_simples]; intros H; [by split |].
  apply andb_prop in H. destruct H as [Hc Hab].
  destruct (IH Hab) as [Ha Hb]. split; [| exact Hb].
  rewrite Ha, andb_true_r. destruct a as [|d a]; [| exact Hc].
  destruct (py_space c); [| reflexivity]. simpl in *.
  apply andb_prop in Hc. destruct Hc as [-> _]. reflexivity.
Qed.

(** Stripping a text whose whitespace is in normal form leaves no
    whitespace at either end. *)
Lemma strip_colapsado s :
  espacos_simples s = true -> colapsado (strip py_space s) = true.
Proof.
  intros Hs. destruct (strip_partes py_space s) as (l & r & Heq & _ & _).
  rewrite Heq in Hs. apply espacos_simples_app in Hs. destruct Hs as [_ Hs].
  apply espacos_simples_app in Hs. destruct Hs as [Hs _].
  unfold colapsado. rewrite Hs. cbn [andb].
  assert (Hfim : comeca_com_espaco (rev (strip py_space s)) = false).
  { unfold strip. rewrite rev_involutive. apply lstrip_sem_espaco. }
  rewrite Hfim, andb_true_r.
  destruct (lstrip_partes py_space (rev (lstrip py_space s))) as (l' & Hl' & _).
  assert (Hx : lstrip py_space s = strip py_space s ++ rev l').
  { unfold strip. rewrite <- rev_app_distr, <- Hl'. by rewrite rev_involutive. }
  pose proof (lstrip_sem_espaco s) as Hini. rewrite Hx in Hini.
  destruct (strip py_space s) as [|c x]; [reflexivity |].
  simpl in *. by rewrite Hini.
Qed.

(** C9, as stated: with three repetitions of the symbol the returned
    text carries it twice. *)
Lemma limpar_preco_cifrao_triplo :
  limpar_preco "R$ R$ R$ 1,00"
    = Retorna (PrecoInfo "R$ R$ 1,00" (Some (Decimal 100 2)))
  /\ ocorrencias (txt "R$") (txt "R$ R$ 1,00") = 2%nat.
Proof. split; vm_compute; reflexivity. Qed.

(** C9, amended: for every input that begins with the currency symbol
    twice (["R$"], optional whitespace, ["R$"]) and has no further
    occurrence of it, the returned text carries the symbol exactly once
    and its whitespace is collapsed: single spaces only, none at either
    end. *)
Theorem limpar_preco_cifrao_duplo (ws resto : list ascii) :
  forallb py_space ws = true ->
  ocorrencias (txt "R$") resto = 0%nat ->
  exists info,
    limpar_preco (str (txt "R$" ++ ws ++ txt "R$" ++ resto)) = Retorna info
    /\ ocorrencias (txt "R$") (txt (texto info)) = 1%nat
    /\ colapsado (txt (texto info)) = true.
Proof.
  intros Hws Hoc.
  destruct (limpar_preco_forma (str (txt "R$" ++ ws ++ txt "R$" ++ resto)))
    as (v & Heq & _); [discriminate | discriminate |].
  eexists. split; [exact Heq |]. cbn [texto].
  rewrite !list_ascii_of_string_of_list_ascii. unfold preco_limpo_de.
  rewrite (re_sub_cifrao_duplo _ _ Hws Hoc).
  set (t := re_sub re_espacos (txt " ") (txt "R$" ++ resto)).
  assert (Ht : espacos_simples t = true) by (by apply sub_espacos_simples).
  split; [| by apply strip_colapsado].
  destruct (strip_partes py_space t) as (l & r & Hp & Hl & Hr).
  transitivity (ocorrencias (txt "R$") t).
  { rewrite Hp at 2. by rewrite ocorrencias_apos_espacos, ocorrencias_antes_espacos. }
  unfold t, re_sub. rewrite sub_espacos_ocorrencias by reflexivity.
  cbn [list_ascii_of_string app]. rewrite ocorrencias_cifrao_cons.
  cbn [head from_option]. rewrite !e_char_refl. cbn [andb].
  rewrite ocorrencias_cifrao_cons. change (e_char "R" "$") with false.
  cbn [andb Nat.add]. by rewrite Hoc.
Qed.

Lemma limpar_preco_cifrao_duplo_witness :
  exists info,
    limpar_preco "R$  R$   7.450,00 " = Retorna info
    /\ ocorrencias (txt "R$") (txt (texto info)) = 1%nat
    /\ colapsado (txt (texto info)) = true.
Proof.
  apply (limpar_preco_cifrao_duplo (txt "  ") (txt "   7.450,00 "));
    vm_compute; reflexivity.
Defined.

(** ** Extraction *)

Lemma item_do_elemento_some product p :
  item_do_elemento product = Some p ->
  e_falha product = false
  /\ nome_do_elemento product <> ""%string
  /\ link_do_elemento product <> ""%string
  /\ p !! "nome"%string = Some (VStr (nome_do_elemento product))
  /\ p !! "link"%string = Some (VStr (link_do_elemento product))
  /\ exists preco, p !! "preco"%string = Some (VStr preco).
Proof.
  unfold item_do_elemento. destruct (e_falha product); [discriminate |].
  destruct (bool_decide (nome_do_elemento product = ""%string)) eqn:Hn;
    [discriminate |].
  destruct (bool_decide (link_do_elemento product = ""%string)) eqn:Hl;
    [discriminate |].
  apply bool_decide_eq_false in Hn, Hl. cbn [negb andb]. intros [= <-].
  do 3 (split; [done |]).
  split; [by simplify_map_eq |]. split; [by simplify_map_eq |].
  eexists. by simplify_map_eq.
Qed.

Lemma item_do_elemento_none product :
  e_falha product = true
  \/ nome_do_elemento product = ""%string
  \/ link_do_elemento product = ""%string ->
  item_do_elemento product = None.
Proof.
  unfold item_do_elemento. intros [-> | [-> | ->]]; [reflexivity | |];
    destruct (e_falha product); try reflexivity.
  rewrite andb_comm. reflexivity.
Qed.

Lemma item_do_elemento_bom product :
  e_falha product = false ->
  nome_do_elemento product <> ""%string ->
  link_do_elemento product <> ""%string ->
  exists p, item_do_elemento product = Some p.
Proof.
  intros Hf Hn Hl. unfold item_do_elemento. rewrite Hf.
  rewrite (bool_decide_eq_false_2 _ Hn), (bool_decide_eq_false_2 _ Hl).
  by eexists.
Qed.

(** The Python loop keeps the name and the link of an item. *)
Lemma enriquecer_retorna cat ts p preco :
  p !! "preco"%string = Some (VStr preco) ->
  exists q, enriquecer cat ts p = Retorna q
    /\ q !! "nome"%string = p !! "nome"%string
    /\ q !! "link"%string = p !! "link"%string.
Proof.
  intros Hp. unfold enriquecer. rewrite Hp.
  destruct (limpar_preco_retorna preco) as (info & ->).
  eexists. split; [reflexivity |]. split; by simplify_map_eq.
Qed.

Lemma para_cada_retorna {A B} (f : A -> py B) l :
  (forall x, x ∈ l -> exists y, f x = Retorna y) ->
  exists ys, para_cada f l = Retorna ys /\ Forall2 (fun x y => f x = Retorna y) l ys.
Proof.
  induction l as [|x l IH]; intros H; [by exists [] |].
  destruct (H x) as (y & Hy); [by left |].
  destruct IH as (ys & Hys & Hall); [intros z Hz; apply H; by right |].
  exists (y :: ys). simpl. rewrite Hy, Hys. split; [reflexivity | by constructor].
Qed.

Lemma Forall2_elem_r {A B} (R : A -> B -> Prop) l k y :
  Forall2 R l k -> y ∈ k -> exists x, x ∈ l /\ R x y.
Proof.
  induction 1 as [|x y' l k HR _ IH]; intros Hy; [by apply elem_of_nil in Hy |].
  apply elem_of_cons in Hy. destruct Hy as [-> | Hy].
  - exists x. split; [by left | exact HR].
  - destruct (IH Hy) as (x' & Hx' & HR'). exists x'. split; [by right | exact HR'].
Qed.

Lemma Forall2_elem_l {A B} (R : A -> B -> Prop) l k x :
  Forall2 R l k -> x ∈ l -> exists y, y ∈ k /\ R x y.
Proof.
  induction 1 as [|x' y l k HR _ IH]; intros Hx; [by apply elem_of_nil in Hx |].
  apply elem_of_cons in Hx. destruct Hx as [-> | Hx].
  - exists y. split; [by left | exact HR].
  - destruct (IH Hx) as (y' & Hy' & HR'). exists y'. split; [by right | exact HR'].
Qed.

Lemma itens_sem_elemento l1 product l2 :
  item_do_elemento product = None ->
  itens_da_pagina (l1 ++ product :: l2) = itens_da_pagina (l1 ++ l2).
Proof.
  intros H. unfold itens_da_pagina. rewrite !omap_app. f_equal.
  simpl. by rewrite H.
Qed.

(** C5: extraction returns on every DOM snapshot; every record it emits
    comes from an element that was read without failure and has a
    non-empty name and a non-empty link; every such element has its
    record in the output; and an element that fails or lacks either
    field is left out without any effect on the records of the others. *)
Theorem extrair_exige_nome_e_link (dom : list elemento) (categoria_nome ts : string) :
  exists produtos,
    extrair_produtos_pagina dom categoria_nome ts = Retorna produtos
    /\ (forall p : produto, p ∈ produtos ->
          exists product, product ∈ dom
            /\ e_falha product = false
            /\ nome_do_elemento product <> ""%string
            /\ link_do_elemento product <> ""%string
            /\ p !! "nome"%string = Some (VStr (nome_do_elemento product))
            /\ p !! "link"%string = Some (VStr (link_do_elemento product)))
    /\ (forall product, product ∈ dom ->
          e_falha product = false ->
          nome_do_elemento product <> ""%string ->
          link_do_elemento product <> ""%string ->
          exists p : produto, p ∈ produtos
            /\ p !! "nome"%string = Some (VStr (nome_do_elemento product))
            /\ p !! "link"%string = Some (VStr (link_do_elemento product)))
    /\ (forall l1 product l2, dom = l1 ++ product :: l2 ->
          e_falha product = true
          \/ nome_do_elemento product = ""%string
          \/ link_do_elemento product = ""%string ->
          extrair_produtos_pagina (l1 ++ l2) categoria_nome ts = Retorna produtos).
Proof.
  unfold extrair_produtos_pagina.
  destruct (para_cada_retorna (enriquecer categoria_nome ts) (itens_da_pagina dom))
    as (produtos & Heq & Hall).
  { intros x Hx. apply list_elem_of_omap in Hx. destruct Hx as (product & _ & Hx).
    apply item_do_elemento_some in Hx.
    destruct Hx as (_ & _ & _ & _ & _ & preco & Hpreco).
    destruct (enriquecer_retorna categoria_nome ts _ _ Hpreco) as (q & Hq & _).
    by exists q. }
  exists produtos. split; [exact Heq |]. split; [| split].
  - intros p Hp. destruct (Forall2_elem_r _ _ _ _ Hall Hp) as (x & Hx & Hxp).
    apply list_elem_of_omap in Hx. destruct Hx as (product & Hin & Hx).
    apply item_do_elemento_some in Hx.
    destruct Hx as (Hf & Hn & Hl & Hnome & Hlink & preco & Hpreco).
    destruct (enriquecer_retorna categoria_nome ts _ _ Hpreco) as (q & Hq & Hqn & Hql).
    rewrite Hq in Hxp. injection Hxp as <-.
    exists product. repeat split; auto; congruence.
  - intros product Hin Hf Hn Hl.
    destruct (item_do_elemento_bom _ Hf Hn Hl) as (x & Hx).
    assert (Hxin : x ∈ itens_da_pagina dom).
    { apply list_elem_of_omap. by exists product. }
    destruct (Forall2_elem_l _ _ _ _ Hall Hxin) as (p & Hp & Hxp).
    apply item_do_elemento_some in Hx.
    destruct Hx as (_ & _ & _ & Hnome & Hlink & preco & Hpreco).
    destruct (enriquecer_retorna categoria_nome ts _ _ Hpreco) as (q & Hq & Hqn & Hql).
    rewrite Hq in Hxp. injection Hxp as <-.
    exists q. repeat split; auto; congruence.
  - intros l1 product l2 -> Hruim.
    rewrite itens_sem_elemento in Heq; [exact Heq |].
    by apply item_do_elemento_none.
Qed.

(** ** The category walker *)

Lemma percorrer_pagina_1 m cat resto visitas todos :
  percorrer m cat (1 :: resto) visitas todos
  = percorrer m cat resto visitas (todos ++ colhidos m cat 1).
Proof.
  cbn [percorrer]. unfold colhidos. change (1 <? 1) with false. cbv iota.
  destruct (visita m cat 1) as [[|p ps] | e]; rewrite ?app_nil_r; reflexivity.
Qed.

Lemma percorrer_pagina_vazia m cat n resto visitas todos :
  1 < n -> visita m cat n = Retorna [] ->
  percorrer m cat (n :: resto) visitas todos
  = (visitas ++ [url_da_pagina (c_url cat) n], todos).
Proof.
  intros Hn Hv. cbn [percorrer]. rewrite Hv.
  apply Z.ltb_lt in Hn. rewrite Hn. reflexivity.
Qed.

Lemma percorrer_pagina_seguinte m cat n resto visitas todos :
  1 < n -> visita m cat n <> Retorna [] ->
  percorrer m cat (n :: resto) visitas todos
  = percorrer m cat resto (visitas ++ [url_da_pagina (c_url cat) n])
      (todos ++ colhidos m cat n).
Proof.
  intros Hn Hv. cbn [percorrer]. unfold colhidos.
  apply Z.ltb_lt in Hn. rewrite Hn.
  destruct (visita m cat n) as [[|p ps] | e]; rewrite ?app_nil_r;
    [congruence | reflexivity | reflexivity].
Qed.

(** From page [a >= 2] on, the loop runs up to the first empty page [n]. *)
Lemma percorrer_ate_vazia m cat n :
  visita m cat n = Retorna [] ->
  forall d a len visitas todos,
    d = Z.to_nat (n - a) -> 2 <= a <= n -> n < a + len ->
    (forall k, a <= k < n -> visita m cat k <> Retorna []) ->
    percorrer m cat (seqZ a len) visitas todos
    = (visitas ++ (url_da_pagina (c_url cat) <$> seqZ a (n - a + 1)),
       todos ++ concat (colhidos m cat <$> seqZ a (n - a))).
Proof.
  intros Hn. induction d as [|d IH]; intros a len visitas todos Hd Ha Hlen Hk.
  - assert (a = n) as -> by lia.
    rewrite (seqZ_cons n len) by lia.
    rewrite percorrer_pagina_vazia by (lia || assumption).
    replace (n - n + 1) with 1 by lia. replace (n - n) with 0 by lia.
    rewrite (seqZ_cons n 1) by lia. rewrite !seqZ_nil by lia.
    simpl. by rewrite app_nil_r.
  - rewrite (seqZ_cons a len) by lia.
    rewrite percorrer_pagina_seguinte; [| lia | apply Hk; lia].
    rewrite (IH (Z.succ a) (Z.pred len)); [| lia | lia | lia | intros k Hk'; apply Hk; lia].
    rewrite (seqZ_cons a (n - a + 1)) by lia.
    rewrite (seqZ_cons a (n - a)) by lia.
    replace (Z.pred (n - a + 1)) with (n - Z.succ a + 1) by lia.
    replace (Z.pred (n - a)) with (n - Z.succ a) by lia.
    rewrite !fmap_cons. cbn [concat]. rewrite <- !app_assoc. reflexivity.
Qed.

(** The visit log only grows. *)
Lemma percorrer_visitas m cat paginas :
  forall visitas todos,
    exists mais, (percorrer m cat paginas visitas todos).1 = visitas ++ mais.
Proof.
  induction paginas as [|n resto IH]; intros visitas todos; cbn [percorrer].
  - exists []. by rewrite app_nil_r.
  - set (v := if 1 <? n then visitas ++ _ else visitas).
    assert (Hv : exists x, v = visitas ++ x).
    { unfold v. destruct (1 <? n); [by eexists | exists []; by rewrite app_nil_r]. }
    destruct Hv as (x & Hx).
    assert (Hrec : forall t, exists mais, (percorrer m cat resto v t).1 = visitas ++ mais).
    { intros t. destruct (IH v t) as (y & Hy). exists (x ++ y).
      by rewrite Hy, Hx, app_assoc. }
    destruct (visita m cat n) as [[|p ps] | e]; try apply Hrec.
    destruct (1 <? n); [| apply Hrec]. exists x. exact Hx.
Qed.

(** C2: when the category page opens and settles, and page [n > 1] is
    the first page after page 1 to yield no records, the walker stops at
    [n]: it visits pages 1 to [n] and returns the records of pages 1 to
    [n - 1] in order, each tagged with its page URL (a page whose visit
    raised contributes none).  An empty page 1 does not stop the walk:
    page 2 is visited whenever the clamped page count reaches it. *)
Theorem percurso_para_na_pagina_vazia (m : mundo) (cat : categoria)
    (max_paginas : Z) :
  ir_base m = Retorna 200 -> assentar_base m = Retorna () ->
  (forall n,
     1 < n <= Z.min (detectar_total_paginas m) max_paginas ->
     visita m cat n = Retorna [] ->
     (forall k, 1 < k < n -> visita m cat k <> Retorna []) ->
     scrape_categoria_com_paginacao m cat max_paginas
     = (c_url cat :: (url_da_pagina (c_url cat) <$> seqZ 2 (n - 1)),
        concat (colhidos m cat <$> seqZ 1 (n - 1))))
  /\ (visita m cat 1 = Retorna [] ->
      2 <= Z.min (detectar_total_paginas m) max_paginas ->
      url_da_pagina (c_url cat) 2
        ∈ (scrape_categoria_com_paginacao m cat max_paginas).1).
Proof.
  intros Hbase Hass. unfold scrape_categoria_com_paginacao.
  rewrite Hbase, Hass. change (negb (200 =? 200)) with false. cbv iota.
  set (total := Z.min (detectar_total_paginas m) max_paginas).
  split.
  - intros n Hn Hvazia Hantes.
    rewrite (seqZ_cons 1 total) by lia. rewrite percorrer_pagina_1.
    change (Z.succ 1) with 2.
    rewrite (percorrer_ate_vazia m cat n Hvazia (Z.to_nat (n - 2)));
      [| reflexivity | lia | lia | intros k Hk; apply Hantes; lia].
    rewrite (seqZ_cons 1 (n - 1)) by lia. rewrite fmap_cons. cbn [concat app].
    change (Z.succ 1) with 2.
    replace (n - 2 + 1) with (n - 1) by lia.
    replace (Z.pred (n - 1)) with (n - 2) by lia. reflexivity.
  - intros _ Htotal.
    rewrite (seqZ_cons 1 total) by lia. rewrite percorrer_pagina_1.
    rewrite (seqZ_cons (Z.succ 1) (Z.pred total)) by lia.
    change (Z.succ 1) with 2. cbn [percorrer]. change (1 <? 2) with true. cbv iota.
    set (v := [c_url cat] ++ [url_da_pagina (c_url cat) 2]).
    assert (Hin : url_da_pagina (c_url cat) 2 ∈ v) by (unfold v; set_solver).
    assert (Hrec : forall t, url_da_pagina (c_url cat) 2
                     ∈ (percorrer m cat (seqZ (Z.succ 2) (Z.pred (Z.pred total))) v t).1).
    { intros t. destruct (percorrer_visitas m cat (seqZ (Z.succ 2) (Z.pred (Z.pred total))) v t)
        as (mais & ->). apply elem_of_app. by left. }
    destruct (visita m cat 2) as [[|p ps] | e]; try apply Hrec. exact Hin.
Qed.

(** ** The retry loop *)

Lemma tentar_falha scrape max_tentativas tentativa resto sonos :
  ~ sucesso (scrape tentativa) -> tentativa < max_tentativas ->
  tentar scrape max_tentativas (tentativa :: resto) sonos
  = tentar scrape max_tentativas resto (sonos ++ [2 ^ tentativa]).
Proof.
  intros Hf Hlt. cbn [tentar]. apply Z.ltb_lt in Hlt. rewrite Hlt.
  destruct (scrape tentativa) as [[|p ps] | e]; try reflexivity.
  exfalso. apply Hf. by exists p, ps.
Qed.

Lemma tentar_ultima scrape max_tentativas resto sonos :
  ~ sucesso (scrape max_tentativas) ->
  tentar scrape max_tentativas (max_tentativas :: resto) sonos
  = match scrape max_tentativas with
    | Levanta e => (sonos, Levanta e)
    | Retorna _ => tentar scrape max_tentativas resto sonos
    end.
Proof.
  intros Hf. cbn [tentar]. rewrite Z.ltb_irrefl.
  destruct (scrape max_tentativas) as [[|p ps] | e]; try reflexivity.
  exfalso. apply Hf. by exists p, ps.
Qed.

(** Up to the first successful attempt [i], every attempt is followed
    by its backoff delay. *)
Lemma tentar_ate_sucesso scrape max_tentativas i p ps :
  i <= max_tentativas -> scrape i = Retorna (p :: ps) ->
  forall d a len sonos,
    d = Z.to_nat (i - a) -> a <= i -> i < a + len ->
    (forall k, a <= k < i -> ~ sucesso (scrape k)) ->
    tentar scrape max_tentativas (seqZ a len) sonos
    = (sonos ++ (Z.pow 2 <$> seqZ a (i - a)), Retorna (p :: ps)).
Proof.
  intros Hmax Hi. induction d as [|d IH]; intros a len sonos Hd Ha Hlen Hk.
  - assert (a = i) as -> by lia.
    rewrite (seqZ_cons i len) by lia. cbn [tentar]. rewrite Hi.
    replace (i - i) with 0 by lia. rewrite seqZ_nil by lia.
    simpl. by rewrite app_nil_r.
  - rewrite (seqZ_cons a len) by lia.
    rewrite tentar_falha; [| apply Hk; lia | lia].
    rewrite (IH (Z.succ a) (Z.pred len)); [| lia | lia | lia | intros k Hk'; apply Hk; lia].
    rewrite (seqZ_cons a (i - a)) by lia. rewrite fmap_cons.
    replace (Z.pred (i - a)) with (i - Z.succ a) by lia.
    by rewrite <- app_assoc.
Qed.

(** Without a successful attempt the loop sleeps after every attempt
    but the last, whose outcome decides the result. *)
Lemma tentar_sem_sucesso scrape max_tentativas :
  forall d a sonos,
    d = Z.to_nat (max_tentativas - a) -> a <= max_tentativas ->
    (forall k, a <= k <= max_tentativas -> ~ sucesso (scrape k)) ->
    tentar scrape max_tentativas (seqZ a (max_tentativas + 1 - a)) sonos
    = (sonos ++ (Z.pow 2 <$> seqZ a (max_tentativas - a)),
       match scrape max_tentativas with
       | Levanta e => Levanta e
       | Retorna _ => Retorna []
       end).
Proof.
  induction d as [|d IH]; intros a sonos Hd Ha Hk.
  - assert (a = max_tentativas) as -> by lia.
    replace (max_tentativas + 1 - max_tentativas) with 1 by lia.
    replace (max_tentativas - max_tentativas) with 0 by lia.
    rewrite (seqZ_cons max_tentativas 1) by lia. rewrite !seqZ_nil by lia.
    rewrite tentar_ultima by (apply Hk; lia). simpl. rewrite app_nil_r.
    by destruct (scrape max_tentativas).
  - rewrite (seqZ_cons a) by lia.
    rewrite tentar_falha; [| apply Hk; lia | lia].
    replace (Z.pred (max_tentativas + 1 - a)) with (max_tentativas + 1 - Z.succ a) by lia.
    rewrite (IH (Z.succ a)); [| lia | lia | intros k Hk'; apply Hk; lia].
    rewrite (seqZ_cons a (max_tentativas - a)) by lia. rewrite fmap_cons.
    replace (Z.pred (max_tentativas - a)) with (max_tentativas - Z.succ a) by lia.
    by rewrite <- app_assoc.
Qed.

(** C3, as stated: an exception raised by an earlier attempt is not
    re-raised when the last attempt returns no records. *)
Lemma retry_excecao_antiga_nao_relancada :
  scrape_com_retry
    (fun t => if t =? 1 then Levanta (Excecao 1) else Retorna []) 3
  = ([2; 4], Retorna []).
Proof. vm_compute. reflexivity. Qed.

(** C3, amended: when all [max_tentativas >= 1] attempts are made and
    none is successful, the exception of the final attempt, if it raised
    one, is re-raised; if the final attempt returned no records, and so
    in particular if every attempt did, the empty list is returned. *)
Theorem retry_esgotado (scrape : Z -> py (list produto)) (max_tentativas : Z) :
  1 <= max_tentativas ->
  (forall k, 1 <= k <= max_tentativas -> ~ sucesso (scrape k)) ->
  (forall e, scrape max_tentativas = Levanta e ->
             (scrape_com_retry scrape max_tentativas).2 = Levanta e)
  /\ (scrape max_tentativas = Retorna [] ->
      (scrape_com_retry scrape max_tentativas).2 = Retorna []).
Proof.
  intros Hmax Hk. unfold scrape_com_retry.
  replace (seqZ 1 max_tentativas) with (seqZ 1 (max_tentativas + 1 - 1))
    by (f_equal; lia).
  rewrite (tentar_sem_sucesso scrape max_tentativas (Z.to_nat (max_tentativas - 1)));
    [| reflexivity | lia | exact Hk].
  split; [intros e He | intros He]; by rewrite He.
Qed.

Lemma retry_esgotado_witness :
  (scrape_com_retry
     (fun t => if t =? 3 then Levanta (Excecao 7) else Retorna []) 3).2
  = Levanta (Excecao 7).
Proof.
  apply (retry_esgotado (fun t => if t =? 3 then Levanta (Excecao 7) else Retorna []) 3);
    [lia | | reflexivity].
  intros k Hk (p & ps & H). destruct (k =? 3); discriminate.
Defined.

(** C4: for [max_tentativas >= 1], the result is that of the first
    attempt [i] that returns at least one record, after a delay of
    [2^k] following each earlier attempt [k]; when no attempt is
    successful, every attempt but the last is followed by its delay
    [2^k]; and with exceptions on attempts 1 and 2 and [[recordA]] on
    attempt 3 of 3, [[recordA]] is returned after delays 2 and 4. *)
Theorem retry_primeiro_sucesso (scrape : Z -> py (list produto)) (max_tentativas : Z) :
  1 <= max_tentativas ->
  (forall i p ps,
     1 <= i <= max_tentativas -> scrape i = Retorna (p :: ps) ->
     (forall k, 1 <= k < i -> ~ sucesso (scrape k)) ->
     scrape_com_retry scrape max_tentativas
     = (Z.pow 2 <$> seqZ 1 (i - 1), Retorna (p :: ps)))
  /\ ((forall k, 1 <= k <= max_tentativas -> ~ sucesso (scrape k)) ->
      (scrape_com_retry scrape max_tentativas).1
      = Z.pow 2 <$> seqZ 1 (max_tentativas - 1))
  /\ (forall (recordA : produto) e1 e2,
        scrape_com_retry
          (fun t => if t =? 1 then Levanta e1
                    else if t =? 2 then Levanta e2 else Retorna [recordA]) 3
        = ([2; 4], Retorna [recordA])).
Proof.
  intros Hmax. split; [| split].
  - intros i p ps Hi Hs Hk. unfold scrape_com_retry.
    rewrite (tentar_ate_sucesso scrape max_tentativas i p ps (proj2 Hi) Hs
               (Z.to_nat (i - 1))); [reflexivity | reflexivity | lia | lia |].
    intros k Hk'. apply Hk. lia.
  - intros Hk. unfold scrape_com_retry.
    replace (seqZ 1 max_tentativas) with (seqZ 1 (max_tentativas + 1 - 1))
      by (f_equal; lia).
    by rewrite (tentar_sem_sucesso scrape max_tentativas (Z.to_nat (max_tentativas - 1)));
      [| reflexivity | lia | exact Hk].
  - intros recordA e1 e2. reflexivity.
Qed.

Lemma retry_primeiro_sucesso_witness :
  scrape_com_retry
    (fun t => if t <? 3 then Levanta (Excecao 1)
              else Retorna [ {[ "link"%string := VStr "https://loja/p" ]} ]) 4
  = ([2; 4], Retorna [ {[ "link"%string := VStr "https://loja/p" ]} ]).
Proof.
  apply (proj1 (retry_primeiro_sucesso
                  (fun t => if t <? 3 then Levanta (Excecao 1)
                            else Retorna [ {[ "link"%string := VStr "https://loja/p" ]} ]) 4
                  ltac:(lia)) 3); [lia | reflexivity |].
  intros k Hk (p & ps & H).
  assert (k = 1 \/ k = 2) as [-> | ->] by lia; discriminate.
Defined.

(** ** The persister *)






Lemma upsert_sql_links_unicos agora v b :
  links_unicos b -> links_unicos (upsert_sql agora v b).1.
Proof.
  unfold links_unicos, upsert_sql. intros Hnd.
  destruct (em_conflito agora v (linhas b)) as [ls|] eqn:He; cbn [fst linhas].
  - assert (Hl : l_link <$> ls = l_link <$> linhas b); [| by rewrite Hl].
    clear Hnd. revert ls He. induction (linhas b) as [|l t IH]; intros ls He;
      cbn [em_conflito] in He; [discriminate |].
    destruct (decide (l_link l = v_link v)).
    + by injection He as <-.
    + destruct (em_conflito agora v t) as [t'|]; [| discriminate].
      injection He as <-. rewrite !fmap_cons. f_equal. by apply IH.
  - rewrite fmap_app. apply NoDup_app. split; [exact Hnd |]. split.
    + intros x Hx Hx'. apply list_elem_of_singleton in Hx'. subst x.
      apply list_elem_of_fmap in Hx. destruct Hx as (l & Hl & Hin).
      clear Hnd. induction (linhas b) as [|l' t IH]; [by apply elem_of_nil in Hin |].
      cbn [em_conflito] in He. destruct (decide (l_link l' = v_link v)); [discriminate |].
      destruct (em_conflito agora v t) eqn:Het; [discriminate |].
      apply elem_of_cons in Hin. destruct Hin as [-> | Hin]; [by symmetry in Hl |].
      by apply IH.
    + apply NoDup_singleton.
Qed.

Section PersistenciaProps.

Variable fromisoformat : list ascii -> py datetime.

Lemma gravar_ok agora p v resto b st :
  preparar fromisoformat p = Retorna v ->
  gravar fromisoformat agora (p :: resto) b st
  = gravar fromisoformat agora resto (upsert_sql agora v b).1
      (if (upsert_sql agora v b).2
       then Estatisticas (S (inseridos st)) (atualizados st) (erros st)
       else Estatisticas (inseridos st) (S (atualizados st)) (erros st)).
Proof.
  intros Hp. cbn [gravar]. rewrite Hp. by destruct (upsert_sql agora v b).
Qed.

Lemma gravar_erro agora p e resto b st :
  preparar fromisoformat p = Levanta e ->
  gravar fromisoformat agora (p :: resto) b st
  = gravar fromisoformat agora resto b (Estatisticas (inseridos st) (atualizados st) (S (erros st))).
Proof. intros Hp. cbn [gravar]. by rewrite Hp. Qed.

(** With the connection available the call is the loop and the commit. *)
Lemma salvar_postgres_disponivel amb conn_dada produtos b :
  disponivel amb conn_dada ->
  salvar_postgres fromisoformat amb conn_dada produtos b
  = gravar fromisoformat (agora amb) produtos b (Estatisticas 0 0 0).
Proof.
  intros ([Hc | Hc] & Hcur & Hcom); unfold salvar_postgres;
    destruct produtos as [|p resto]; try reflexivity;
    rewrite Hc, Hcur, Hcom; rewrite ?andb_false_r; cbn [negb andb];
    by destruct (gravar _ _ _ _ _).
Qed.

(** The counters only add up: the loop from [st] is the loop from zero
    shifted by [st]. *)
Lemma gravar_soma agora produtos :
  forall b st,
    gravar fromisoformat agora produtos b st
    = (Estatisticas
         (inseridos st + inseridos (gravar fromisoformat agora produtos b (Estatisticas 0 0 0)).1)
         (atualizados st + atualizados (gravar fromisoformat agora produtos b (Estatisticas 0 0 0)).1)
         (erros st + erros (gravar fromisoformat agora produtos b (Estatisticas 0 0 0)).1),
       (gravar fromisoformat agora produtos b (Estatisticas 0 0 0)).2)%nat.
Proof.
  induction produtos as [|p resto IH]; intros b st.
  - cbn. rewrite !Nat.add_0_r. by destruct st.
  - destruct (preparar fromisoformat p) as [v | e] eqn:Hp.
    + rewrite !(gravar_ok _ _ _ _ _ _ Hp).
      set (b1 := (upsert_sql agora v b).1).
      destruct (upsert_sql agora v b).2; cbn [inseridos atualizados erros].
      * rewrite (IH b1 (Estatisticas (S _) _ _)), (IH b1 (Estatisticas 1 0 0)).
        cbn [inseridos atualizados erros fst snd]. f_equal; f_equal; lia.
      * rewrite (IH b1 (Estatisticas _ (S _) _)), (IH b1 (Estatisticas 0 1 0)).
        cbn [inseridos atualizados erros fst snd]. f_equal; f_equal; lia.
    + rewrite !(gravar_erro _ _ _ _ _ _ Hp). cbn [inseridos atualizados erros].
      rewrite (IH b (Estatisticas _ _ (S _))), (IH b (Estatisticas 0 0 1)).
      cbn [inseridos atualizados erros fst snd]. f_equal; f_equal; lia.
Qed.

(** Every record is counted exactly once. *)
Lemma gravar_contagem agora produtos b :
  let st := (gravar fromisoformat agora produtos b (Estatisticas 0 0 0)).1 in
  (inseridos st + atualizados st + erros st)%nat = length produtos.
Proof.
  revert b. induction produtos as [|p resto IH]; intros b; [reflexivity |].
  destruct (preparar fromisoformat p) as [v | e] eqn:Hp.
  - rewrite (gravar_ok _ _ _ _ _ _ Hp). rewrite gravar_soma.
    specialize (IH (upsert_sql agora v b).1). cbn zeta in IH.
    destruct (upsert_sql agora v b).2; cbn [inseridos atualizados erros fst length] in *; lia.
  - rewrite (gravar_erro _ _ _ _ _ _ Hp). rewrite gravar_soma.
    specialize (IH b). cbn zeta in IH.
    cbn [inseridos atualizados erros fst length] in *; lia.
Qed.

(** C10: on every return path of [salvar_postgres] (empty input, no
    connection, the loop followed by the commit, and a failing
    [cursor()] or [commit()]) the three counts add up to the number of
    input records. *)
Theorem salvar_postgres_particiona (amb : ambiente) (conn_dada : bool)
    (produtos : list produto) (b : banco) :
  let st := (salvar_postgres fromisoformat amb conn_dada produtos b).1 in
  (inseridos st + atualizados st + erros st)%nat = length produtos.
Proof.
  unfold salvar_postgres. destruct produtos as [|p resto]; [reflexivity |].
  destruct (negb conn_dada && negb (conecta amb)); [reflexivity |].
  destruct (negb (cursor_ok amb)); [reflexivity |].
  pose proof (gravar_contagem (agora amb) (p :: resto) b) as H. cbn zeta in H.
  destruct (gravar fromisoformat (agora amb) (p :: resto) b (Estatisticas 0 0 0)) as [st b'].
  destruct (commit_ok amb); [exact H | reflexivity].
Qed.






End PersistenciaProps.

(** ** Worked instances *)

Example extrair_ex :
  extrair_produtos_pagina
    [elemento_ex " Parrilla  " "https://loja/parrilla" "R$ 7.450,00";
     elemento_sem_nome; elemento_quebrado]
    "Bancada" "2025-01-27T10:00:00"
  = Retorna
      [<["status" := VStr "Disponível"]>
       (<["data_scraping" := VStr "2025-01-27T10:00:00"]>
       (<["preco_valor" := VNum (Decimal 745000 2)]>
       (<["preco_texto" := VStr "R$ 7.450,00"]>
       (<["categoria" := VStr "Bancada"]>
       (<["id" := VStr "42"]>
       (<["sku" := VStr ""]>
       (<["nome" := VStr "Parrilla"]>
       (<["preco" := VStr "R$ R$ 7.450,00"]>
       (<["imagem" := VStr ""]>
       (<["link" := VStr "https://loja/parrilla"]>
       (<["metodo_extracao" := VStr ".listagem-item"]> ∅)))))))))))].
Proof. apply (bool_decide_unpack _). vm_compute. exact I. Qed.

(** An element without a name and an element that throws next to a
    complete one: the complete one is emitted, and the output is the
    same without the nameless element. *)
Lemma extrair_exige_nome_e_link_witness :
  exists produtos,
    extrair_produtos_pagina
      [elemento_ex "Parrilla" "https://loja/parrilla" "R$ 7.450,00";
       elemento_sem_nome; elemento_quebrado]
      "Bancada" "2025-01-27T10:00:00" = Retorna produtos
    /\ (exists p : produto, p ∈ produtos
          /\ p !! "link"%string = Some (VStr "https://loja/parrilla"))
    /\ extrair_produtos_pagina
         [elemento_ex "Parrilla" "https://loja/parrilla" "R$ 7.450,00";
          elemento_quebrado]
         "Bancada" "2025-01-27T10:00:00" = Retorna produtos.
Proof.
  destruct (extrair_exige_nome_e_link
              [elemento_ex "Parrilla" "https://loja/parrilla" "R$ 7.450,00";
               elemento_sem_nome; elemento_quebrado]
              "Bancada" "2025-01-27T10:00:00")
    as (produtos & Heq & _ & Hbons & Hruins).
  exists produtos. split; [exact Heq |]. split.
  - destruct (Hbons (elemento_ex "Parrilla" "https://loja/parrilla" "R$ 7.450,00"))
      as (p & Hp & _ & Hl); [by left | reflexivity | discriminate | discriminate |].
    exists p. split; [exact Hp | exact Hl].
  - apply (Hruins [elemento_ex "Parrilla" "https://loja/parrilla" "R$ 7.450,00"]
             elemento_sem_nome [elemento_quebrado]); [reflexivity |].
    right. left. reflexivity.
Defined.

(** On [mundo_segunda_vazia] the walk ends on page 2 with the records
    of page 1; on [mundo_primeira_vazia] page 2 is visited. *)
Lemma percurso_para_na_pagina_vazia_witness :
  scrape_categoria_com_paginacao mundo_segunda_vazia cat_ex 20
  = (c_url cat_ex :: (url_da_pagina (c_url cat_ex) <$> seqZ 2 (2 - 1)),
     concat (colhidos mundo_segunda_vazia cat_ex <$> seqZ 1 (2 - 1)))
  /\ url_da_pagina (c_url cat_ex) 2
       ∈ (scrape_categoria_com_paginacao mundo_primeira_vazia cat_ex 20).1.
Proof.
  split.
  - apply (proj1 (percurso_para_na_pagina_vazia mundo_segunda_vazia cat_ex 20
                    eq_refl eq_refl) 2).
    + vm_compute. split; [reflexivity | discriminate].
    + vm_compute. reflexivity.
    + intros k Hk. lia.
  - apply (proj2 (percurso_para_na_pagina_vazia mundo_primeira_vazia cat_ex 20
                    eq_refl eq_refl)).
    + vm_compute. reflexivity.
    + vm_compute. discriminate.
Defined.

Example percurso_ex :
  scrape_categoria_com_paginacao mundo_segunda_vazia cat_ex 20
  = (["https://www.lojamestreparrillero.com.br/bancada";
      "https://www.lojamestreparrillero.com.br/bancada?pagina=2"]%string,
     [<["fonte" := VStr "https://www.lojamestreparrillero.com.br/bancada"]>
      (<["status" := VStr "Disponível"]>
      (<["data_scraping" := VStr "2025-01-27T10:00:00"]>
      (<["preco_valor" := VNum (Decimal 745000 2)]>
      (<["preco_texto" := VStr "R$ 7.450,00"]>
      (<["categoria" := VStr "Bancada"]>
      (<["id" := VStr "42"]>
      (<["sku" := VStr ""]>
      (<["nome" := VStr "Parrilla"]>
      (<["preco" := VStr "R$ R$ 7.450,00"]>
      (<["imagem" := VStr ""]>
      (<["link" := VStr "https://loja/parrilla"]>
      (<["metodo_extracao" := VStr ".listagem-item"]> ∅))))))))))))]).
Proof. apply (bool_decide_unpack _). vm_compute. exact I. Qed.

Lemma preparar_ex link :
  preparar iso_basico (produto_ex link "2025-01-27T10:00:00")
  = Retorna (parametros_ex link).
Proof. reflexivity. Qed.




(** * Further properties *)

(** ** More on the price parser *)

Lemma preco_limpo_colapsado s : colapsado (preco_limpo_de s) = true.
Proof.
  unfold preco_limpo_de. apply strip_colapsado.
  unfold re_sub at 1. by apply sub_espacos_simples.
Qed.

(** X1: on every input the text [limpar_preco] returns has its
    whitespace in normal form: no whitespace at either end, and every
    whitespace character is a single space between two other
    characters. *)
Theorem limpar_preco_texto_normalizado (preco_str : string) :
  exists info, limpar_preco preco_str = Retorna info
    /\ colapsado (txt (texto info)) = true.
Proof.
  destruct (decide (preco_str = ""%string)) as [-> | H1];
    [eexists; split; reflexivity |].
  destruct (decide (preco_str = "Consultar"%string)) as [-> | H2];
    [eexists; split; reflexivity |].
  destruct (limpar_preco_forma _ H1 H2) as (v & -> & _).
  eexists. split; [reflexivity |]. cbn [texto].
  rewrite list_ascii_of_string_of_list_ascii. apply preco_limpo_colapsado.
Qed.






Lemma ocorrencias_cons_le pat c t :
  (ocorrencias pat t <= ocorrencias pat (c :: t))%nat.
Proof. cbn [ocorrencias]. lia. Qed.

(** What [R\$\s*R\$] consumes. *)
Lemma casa_cifrao_partes s s1 :
  casa re_cifrao_duplo s = Some s1 ->
  exists ws, forallb py_space ws = true
    /\ s = "R"%char :: "$"%char :: ws ++ "R"%char :: "$"%char :: s1.
Proof.
  intros H. destruct (casa_correto _ _ _ H) as (w & -> & Hw & _).
  unfold re_cifrao_duplo, Lit in Hw.
  inversion Hw as [| r1 r2 w1 w2 H1 H2 | | | | |]; subst; clear Hw.
  inversion H2 as [| r1 r2 w3 w4 H3 H4 | | | | |]; subst; clear H2.
  inversion H4 as [| r1 r2 w5 w6 H5 H6 | | | | |]; subst; clear H4.
  inversion H6 as [| r1 r2 w7 w8 H7 H8 | | | | |]; subst; clear H6.
  inversion H1 as [p c1 Hc1 | | | | | |]; subst; clear H1.
  inversion H3 as [p c2 Hc2 | | | | | |]; subst; clear H3.
  inversion H7 as [p c3 Hc3 | | | | | |]; subst; clear H7.
  inversion H8 as [p c4 Hc4 | | | | | |]; subst; clear H8.
  apply e_char_eq in Hc1, Hc2, Hc3, Hc4. subst.
  exists w5. split; [by apply pertence_star_cls |].
  cbn [app]. by rewrite <- !app_assoc.
Qed.

Lemma ocorrencias_cifrao_duplo ws t :
  forallb py_space ws = true ->
  (2 <= ocorrencias (txt "R$")
          ("R"%char :: "$"%char :: ws ++ "R"%char :: "$"%char :: t))%nat.
Proof.
  intros Hws. rewrite ocorrencias_cifrao_cons. cbn [head from_option].
  rewrite !e_char_refl. cbn [andb].
  pose proof (ocorrencias_cons_le (txt "R$") "$"%char
                (ws ++ "R"%char :: "$"%char :: t)) as H.
  rewrite (ocorrencias_apos_espacos _ _ Hws) in H.
  rewrite ocorrencias_cifrao_cons in H. cbn [head from_option] in H.
  rewrite !e_char_refl in H. cbn [andb] in H. lia.
Qed.

(** With at most one occurrence of the symbol, [re.sub] finds no
    duplicate. *)
Lemma re_sub_um_cifrao repl s :
  (ocorrencias (txt "R$") s <= 1)%nat ->
  forall fuel, re_sub_aux fuel re_cifrao_duplo repl s = s.
Proof.
  induction s as [|c t IH]; intros Hoc fuel; [apply re_sub_aux_nil |].
  destruct fuel as [|f]; [reflexivity |]. rewrite re_sub_aux_S.
  destruct (casa re_cifrao_duplo (c :: t)) as [s1|] eqn:Hc.
  - apply casa_cifrao_partes in Hc. destruct Hc as (ws & Hws & Heq).
    rewrite Heq in Hoc. pose proof (ocorrencias_cifrao_duplo ws s1 Hws). lia.
  - rewrite IH; [reflexivity |].
    pose proof (ocorrencias_cons_le (txt "R$") c t). lia.
Qed.

Lemma lstrip_id s : comeca_com_espaco s = false -> lstrip py_space s = s.
Proof. destruct s as [|c t]; [reflexivity |]. cbn. by intros ->. Qed.

Lemma sub_espacos_id s :
  espacos_simples s = true ->
  forall fuel, re_sub_aux fuel re_espacos (txt " ") s = s.
Proof.
  induction s as [|c t IH]; intros Hs fuel; [apply re_sub_aux_nil |].
  destruct fuel as [|f]; [reflexivity |]. rewrite sub_espacos_S.
  cbn [espacos_simples] in Hs. apply andb_prop in Hs. destruct Hs as [Hc Ht].
  destruct (py_space c); cbn [negb orb] in Hc.
  - apply andb_prop in Hc. destruct Hc as [Hc Hn].
    apply e_char_eq in Hc. subst c. apply negb_true_iff in Hn.
    rewrite (lstrip_id _ Hn). by rewrite IH.
  - by rewrite IH.
Qed.

Lemma strip_id s :
  comeca_com_espaco s = false -> comeca_com_espaco (rev s) = false ->
  strip py_space s = s.
Proof.
  intros H1 H2. unfold strip. rewrite (lstrip_id _ H1), (lstrip_id _ H2).
  apply rev_involutive.
Qed.

Lemma preco_limpo_id s :
  colapsado s = true -> (ocorrencias (txt "R$") s <= 1)%nat ->
  preco_limpo_de s = s.
Proof.
  unfold colapsado. intros Hc Hoc.
  apply andb_prop in Hc. destruct Hc as [Hc H3].
  apply andb_prop in Hc. destruct Hc as [H1 H2].
  apply negb_true_iff in H2, H3.
  unfold preco_limpo_de, re_sub.
  rewrite (re_sub_um_cifrao _ _ Hoc), (sub_espacos_id _ H1).
  by apply strip_id.
Qed.

(** X3: a text that is already clean (whitespace in normal form, the
    currency symbol at most once) and not empty comes back unchanged. *)
Theorem limpar_preco_texto_limpo (preco_str : string) :
  preco_str <> ""%string ->
  colapsado (txt preco_str) = true ->
  (ocorrencias (txt "R$") (txt preco_str) <= 1)%nat ->
  exists v, limpar_preco preco_str = Retorna (PrecoInfo preco_str v).
Proof.
  intros Hne Hc Hoc.
  destruct (decide (preco_str = "Consultar"%string)) as [-> | H2];
    [by eexists |].
  destruct (limpar_preco_forma _ Hne H2) as (v & -> & _).
  exists v. rewrite (preco_limpo_id _ Hc Hoc).
  by rewrite string_of_list_ascii_of_string.
Qed.

Lemma limpar_preco_texto_limpo_witness :
  exists v, limpar_preco "12x de R$ 99,90"
            = Retorna (PrecoInfo "12x de R$ 99,90" v).
Proof.
  apply limpar_preco_texto_limpo; [discriminate | reflexivity |].
  vm_compute. lia.
Defined.

Lemma head_star_cls p t :
  forall fuel, (length t <= fuel)%nat ->
  head (star_m (restos (Cls p)) fuel t) = Some (lstrip p t).
Proof.
  induction t as [|c t IH]; intros fuel Hf.
  - destruct fuel; reflexivity.
  - destruct fuel as [|f]; [simpl in Hf; lia |].
    rewrite star_m_S, restos_cls. cbn [lstrip].
    destruct (p c).
    + rewrite filter_mais_curto_cons, bind_singleton.
      apply head_app_some, IH. simpl in Hf. lia.
    + rewrite filter_nil. reflexivity.
Qed.

Lemma head_bind_some {A B} (f : A -> list B) l x y :
  head l = Some x -> head (f x) = Some y -> head (l ≫= f) = Some y.
Proof.
  destruct l as [|x' l]; [discriminate |]. intros [= ->] Hy.
  rewrite bind_cons. by apply head_app_some.
Qed.


Lemma lstrip_app p w t : forallb p w = true -> lstrip p (w ++ t) = lstrip p t.
Proof.
  induction w as [|c w IH]; [reflexivity |]. cbn [forallb app lstrip].
  intros H. apply andb_prop in H. destruct H as [-> Hw]. by apply IH.
Qed.

Lemma lstrip_para p c t : p c = false -> lstrip p (c :: t) = c :: t.
Proof. cbn [lstrip]. by intros ->. Qed.

Lemma restos_rep2_digitos d1 d2 t :
  digito d1 = true -> digito d2 = true ->
  restos (Cat (Lit ",") (Rep 2 (Cls digito))) (","%char :: d1 :: d2 :: t) = [t].
Proof.
  intros H1 H2. rewrite restos_cat, restos_lit, e_char_refl, bind_singleton.
  cbn [restos rep_m]. rewrite H1, bind_singleton, H2, bind_singleton. reflexivity.
Qed.

(** [[\d.]+,\d{2}] at the start of a run of digits and dots that a comma
    and two digits follow: the whole run is taken. *)
Lemma casa_re_valor w d1 d2 t :
  w <> [] -> forallb de_valor w = true ->
  digito d1 = true -> digito d2 = true ->
  casa re_valor (w ++ ","%char :: d1 :: d2 :: t) = Some t.
Proof.
  intros Hne Hw H1 H2. destruct w as [|c w]; [done |].
  cbn [forallb] in Hw. apply andb_prop in Hw. destruct Hw as [Hc Hw].
  unfold casa, re_valor. rewrite restos_cat, restos_plus. cbn [app].
  rewrite restos_cls. fold (de_valor c). rewrite Hc, bind_singleton.
  apply head_filter_some.
  - eapply head_bind_some.
    + apply head_star_cls. reflexivity.
    + rewrite (lstrip_app _ _ _ Hw).
      rewrite (lstrip_para de_valor "," _ eq_refl).
      rewrite (restos_rep2_digitos _ _ _ H1 H2). reflexivity.
  - unfold mais_curto. cbn [length]. rewrite length_app. cbn [length]. lia.
Qed.

Lemma casa_re_valor_fora c t : de_valor c = false -> casa re_valor (c :: t) = None.
Proof.
  intros Hc. unfold casa, re_valor. rewrite restos_cat, restos_plus, restos_cls.
  fold (de_valor c). rewrite Hc. reflexivity.
Qed.

(** [re.search] passes over characters that are neither digits nor dots. *)
Lemma re_search_valor_salta pre s :
  forallb (fun c => negb (de_valor c)) pre = true ->
  re_search re_valor (pre ++ s) = re_search re_valor s.
Proof.
  induction pre as [|c pre IH]; [reflexivity |]. cbn [forallb app].
  intros H. apply andb_prop in H. destruct H as [Hc Hpre].
  apply negb_true_iff in Hc.
  rewrite re_search_eq, (casa_re_valor_fora _ _ Hc). by apply IH.
Qed.

Lemma re_search_valor_acha w d1 d2 t :
  w <> [] -> forallb de_valor w = true ->
  digito d1 = true -> digito d2 = true ->
  re_search re_valor (w ++ ","%char :: d1 :: d2 :: t)
  = Some (w ++ [","%char; d1; d2]).
Proof.
  intros Hne Hw H1 H2.
  rewrite re_search_eq, (casa_re_valor _ _ _ _ Hne Hw H1 H2).
  f_equal. rewrite length_app. cbn [length].
  replace (length w + S (S (S (length t))) - length t)%nat
    with (length (w ++ [","%char; d1; d2])) by (rewrite length_app; simpl; lia).
  change (","%char :: d1 :: d2 :: t) with ([","%char; d1; d2] ++ t).
  rewrite app_assoc. apply take_app_length.
Qed.

(** The literal [float] is given: the digits of the run, a point, the
    two decimals. *)
Lemma literal_do_valor_eq w d1 d2 :
  forallb de_valor w = true -> digito d1 = true -> digito d2 = true ->
  replace "," (txt ".") (replace "." [] (w ++ [","%char; d1; d2]))
  = List.filter digito w ++ ["."%char; d1; d2].
Proof.
  intros Hw Hd1 Hd2.
  destruct (digito_nao_pontua _ Hd1) as [Hp1 Hv1].
  destruct (digito_nao_pontua _ Hd2) as [Hp2 Hv2].
  induction w as [|c t IH]; cbn [forallb replace app List.filter] in *.
  - rewrite Hp1, Hp2. change (("," =? ".")%char) with false.
    cbn [replace app]. rewrite Hv1, Hv2. reflexivity.
  - apply andb_prop in Hw. destruct Hw as [Hc Ht]. unfold de_valor in Hc.
    destruct (digito c) eqn:Hdc.
    + destruct (digito_nao_pontua _ Hdc) as [Hpc Hvc].
      rewrite Hpc. cbn [replace app]. rewrite Hvc. cbn [app]. by rewrite (IH Ht).
    + cbn [orb] in Hc. apply e_char_eq in Hc. subst c.
      change (("." =? ".")%char) with true. cbn [app]. exact (IH Ht).
Qed.

Lemma forallb_filter_digito w : forallb digito (List.filter digito w) = true.
Proof.
  apply forallb_forall. intros c Hc. by apply List.filter_In in Hc as [_ ?].
Qed.

(** X4: when the cleaned text starts with characters that are neither
    digits nor dots, followed by a run of digits and dots, a comma and
    two digits, the value is the number the digits of the run and the
    two decimals spell, in hundredths: the dots count for nothing, and
    what follows the two decimals is ignored. *)
Theorem limpar_preco_valor (preco_str : string) (pre w : list ascii)
    (d1 d2 : ascii) (pos : list ascii) :
  preco_str <> ""%string -> preco_str <> "Consultar"%string ->
  preco_limpo_de (txt preco_str) = pre ++ w ++ ","%char :: d1 :: d2 :: pos ->
  forallb (fun c => negb (de_valor c)) pre = true ->
  w <> [] -> forallb de_valor w = true ->
  digito d1 = true -> digito d2 = true ->
  limpar_preco preco_str
  = Retorna (PrecoInfo (str (preco_limpo_de (txt preco_str)))
               (Some (Decimal (numero 0 (List.filter digito w ++ [d1; d2])) 2))).
Proof.
  intros H1 H2 Hl Hpre Hne Hw Hd1 Hd2.
  rewrite (limpar_preco_eq _ H1 H2), Hl.
  rewrite (re_search_valor_salta _ _ Hpre).
  rewrite (re_search_valor_acha _ _ _ _ Hne Hw Hd1 Hd2).
  rewrite (literal_do_valor_eq _ _ _ Hw Hd1 Hd2).
  by rewrite (py_float_duas_casas _ _ _ (forallb_filter_digito w) Hd1 Hd2).
Qed.

Lemma limpar_preco_valor_witness :
  limpar_preco "R$  1.234.567,89 a vista"
  = Retorna (PrecoInfo "R$ 1.234.567,89 a vista" (Some (Decimal 123456789 2))).
Proof.
  apply (limpar_preco_valor "R$  1.234.567,89 a vista" (txt "R$ ")
           (txt "1.234.567") "8" "9" (txt " a vista"));
    (discriminate || reflexivity).
Defined.

(** ** More on extraction *)

Lemma item_do_elemento_completo product :
  match item_do_elemento product with
  | Some _ => completo product = true
  | None => completo product = false
  end.
Proof.
  unfold item_do_elemento, completo. destruct (e_falha product); [reflexivity |].
  cbn [negb andb].
  by destruct (negb (bool_decide (nome_do_elemento product = ""%string))
               && negb (bool_decide (link_do_elemento product = ""%string))).
Qed.

Lemma itens_da_pagina_cons product dom :
  itens_da_pagina (product :: dom)
  = match item_do_elemento product with
    | Some x => x :: itens_da_pagina dom
    | None => itens_da_pagina dom
    end.
Proof. unfold itens_da_pagina. cbn [omap list_omap]. by destruct (item_do_elemento product). Qed.

(** X5: extraction keeps the order and the multiplicity of the page:
    the names and links of the records are, one for one and in DOM
    order, those of the elements read without failure that have both. *)
Theorem extrair_ordem (dom : list elemento) (categoria_nome ts : string) :
  exists produtos,
    extrair_produtos_pagina dom categoria_nome ts = Retorna produtos
    /\ (fun p : produto => p !! "link"%string) <$> produtos
       = (fun product => Some (VStr (link_do_elemento product)))
           <$> List.filter completo dom
    /\ (fun p : produto => p !! "nome"%string) <$> produtos
       = (fun product => Some (VStr (nome_do_elemento product)))
           <$> List.filter completo dom.
Proof.
  unfold extrair_produtos_pagina. induction dom as [|product dom IH].
  - exists []. by repeat split.
  - destruct IH as (produtos & Heq & Hl & Hn).
    rewrite itens_da_pagina_cons. cbn [List.filter].
    pose proof (item_do_elemento_completo product) as Hc.
    destruct (item_do_elemento product) as [x|] eqn:Hx; rewrite Hc.
    + apply item_do_elemento_some in Hx.
      destruct Hx as (_ & _ & _ & Hnome & Hlink & preco & Hpreco).
      destruct (enriquecer_retorna categoria_nome ts _ _ Hpreco) as (q & Hq & Hqn & Hql).
      exists (q :: produtos). cbn [para_cada]. rewrite Hq, Heq.
      split; [reflexivity |]. rewrite !fmap_cons, Hl, Hn.
      split; f_equal; congruence.
    + exists produtos. by repeat split.
Qed.

Lemma item_do_elemento_preco product x :
  item_do_elemento product = Some x ->
  exists preco, x !! "preco"%string = Some (VStr preco) /\ preco <> ""%string
    /\ dom x = list_to_set ["id"; "sku"; "nome"; "preco"; "imagem"; "link";
                            "metodo_extracao"]%string.
Proof.
  unfold item_do_elemento. destruct (e_falha product); [discriminate |].
  destruct (negb _ && negb _); [| discriminate]. intros [= <-].
  eexists. split.
  { rewrite !lookup_insert_ne by done. rewrite lookup_insert_eq. reflexivity. }
  split.
  - case_bool_decide; [discriminate | assumption].
  - rewrite !dom_insert_L, dom_empty_L. cbn [list_to_set foldr].
    reflexivity.
Qed.

(** The category and the timestamp of an extracted record. *)
Lemma extrair_campos (dom : list elemento) (categoria_nome ts : string)
    (produtos : list produto) (p : produto) :
  extrair_produtos_pagina dom categoria_nome ts = Retorna produtos ->
  p ∈ produtos ->
  p !! "categoria"%string = Some (VStr categoria_nome)
  /\ p !! "data_scraping"%string = Some (VStr ts).
Proof.
  unfold extrair_produtos_pagina. revert produtos.
  induction (itens_da_pagina dom) as [|x l IH]; intros produtos Heq Hp;
    cbn [para_cada] in Heq.
  - injection Heq as <-. by apply elem_of_nil in Hp.
  - destruct (enriquecer categoria_nome ts x) as [q | e] eqn:Hq; [| discriminate].
    destruct (para_cada (enriquecer categoria_nome ts) l) as [qs | e]; [| discriminate].
    injection Heq as <-. apply elem_of_cons in Hp. destruct Hp as [-> | Hp].
    + unfold enriquecer in Hq. destruct (x !! "preco"%string) as [[| preco | |]|];
        try discriminate.
      destruct (limpar_preco preco); [| discriminate]. injection Hq as <-.
      split; by simplify_map_eq.
    + by apply (IH qs).
Qed.

(** X6: every record extraction returns has exactly the twelve keys
    the later stages read; its category, timestamp and status are the
    ones given; its raw price is never empty; and its [preco_texto] and
    [preco_valor] are what [limpar_preco] returns for the raw price. *)
Theorem extrair_registro_completo (dom : list elemento) (categoria_nome ts : string)
    (produtos : list produto) (p : produto) :
  extrair_produtos_pagina dom categoria_nome ts = Retorna produtos ->
  p ∈ produtos ->
  base.dom p = chaves_extraidas
  /\ p !! "categoria"%string = Some (VStr categoria_nome)
  /\ p !! "data_scraping"%string = Some (VStr ts)
  /\ p !! "status"%string = Some (VStr "Disponível")
  /\ exists preco info,
       p !! "preco"%string = Some (VStr preco) /\ preco <> ""%string
       /\ limpar_preco preco = Retorna info
       /\ p !! "preco_texto"%string = Some (VStr (texto info))
       /\ p !! "preco_valor"%string = Some (from_option VNum VNone (valor info)).
Proof.
  unfold extrair_produtos_pagina. intros Heq Hp.
  destruct (para_cada_retorna (enriquecer categoria_nome ts) (itens_da_pagina dom))
    as (produtos' & Heq' & Hall).
  { intros x Hx. apply list_elem_of_omap in Hx. destruct Hx as (product & _ & Hx).
    apply item_do_elemento_some in Hx.
    destruct Hx as (_ & _ & _ & _ & _ & preco & Hpreco).
    destruct (enriquecer_retorna categoria_nome ts _ _ Hpreco) as (q & Hq & _).
    by exists q. }
  rewrite Heq in Heq'. injection Heq' as <-.
  destruct (Forall2_elem_r _ _ _ _ Hall Hp) as (x & Hx & Hxp).
  apply list_elem_of_omap in Hx. destruct Hx as (product & _ & Hx).
  apply item_do_elemento_preco in Hx. destruct Hx as (preco & Hpreco & Hne & Hdom).
  unfold enriquecer in Hxp. rewrite Hpreco in Hxp.
  destruct (limpar_preco preco) as [info | e] eqn:Hinfo; [| discriminate].
  injection Hxp as <-.
  split.
  { rewrite !dom_insert_L, Hdom. unfold chaves_extraidas.
    cbn [list_to_set foldr]. set_solver. }
  do 3 (split; [by simplify_map_eq |]).
  exists preco, info. split; [by simplify_map_eq |]. split; [exact Hne |].
  split; [exact Hinfo |]. split; by simplify_map_eq.
Qed.

Lemma extrair_registro_completo_witness :
  base.dom registro_ex = chaves_extraidas
  /\ registro_ex !! "categoria"%string = Some (VStr "Bancada").
Proof.
  destruct (extrair_registro_completo
              [elemento_ex " Parrilla  " "https://loja/parrilla" "R$ 7.450,00";
               elemento_sem_nome]
              "Bancada" "2025-01-27T10:00:00" [registro_ex] registro_ex)
    as (Hd & Hc & _);
    [apply (bool_decide_unpack _); vm_compute; exact I | by left |].
  split; [exact Hd | exact Hc].
Defined.

Lemma pertence_lit a w : pertence (Lit a) w -> w = [a].
Proof.
  unfold Lit. intros H. inversion H as [p c Hc | | | | | |]; subst.
  by apply e_char_eq in Hc as ->.
Qed.

(** X7: the identifier read out of the class name, when there is one,
    is a non-empty run of digits that follows an occurrence of
    [prod-id-] in the class name. *)
Theorem class_prod_id_digitos (cls s : string) :
  class_prod_id cls = Some s ->
  txt s <> [] /\ forallb digito (txt s) = true
  /\ exists u v, txt cls = u ++ txt "prod-id-" ++ txt s ++ v.
Proof.
  unfold class_prod_id. destruct (re_search re_prod_id (txt cls)) as [m|] eqn:Hm;
    [| discriminate].
  intros [= <-]. rewrite list_ascii_of_string_of_list_ascii.
  destruct (re_search_correto _ _ _ Hm) as (u & v & Heq & Hw).
  unfold re_prod_id in Hw.
  repeat match type of Hw with
  | pertence (Cat (Lit _) _) _ =>
      let w1 := fresh "w" in let w2 := fresh "w" in
      let H1 := fresh "H" in let H2 := fresh "H" in
      inversion Hw as [| ? ? w1 w2 H1 H2 | | | | |]; subst; clear Hw;
      apply pertence_lit in H1; subst w1; rename H2 into Hw
  end.
  apply pertence_plus_cls in Hw. destruct Hw as [Hd Hne].
  cbn [app drop]. split; [exact Hne |]. split; [exact Hd |].
  exists u, v. rewrite Heq. cbn [list_ascii_of_string app]. reflexivity.
Qed.

Lemma class_prod_id_digitos_witness :
  class_prod_id "listagem-item prod-id-x prod-id-42 destaque" = Some "42"%string
  /\ forallb digito (txt "42") = true.
Proof.
  assert (H : class_prod_id "listagem-item prod-id-x prod-id-42 destaque"
              = Some "42"%string) by reflexivity.
  split; [exact H |].
  exact (proj1 (proj2 (class_prod_id_digitos _ _ H))).
Defined.

(** ** The pagination detector *)

Example parseInt_ex :
  parseInt (txt "  12abc") = Some 12 /\ parseInt (txt "-3") = Some (-3)
  /\ parseInt (txt "0x1A") = Some 26 /\ parseInt (txt "Próxima") = None
  /\ parseInt (txt "0x") = None /\ parseInt (txt "") = None.
Proof. repeat split; reflexivity. Qed.

Lemma maior_rotulo_acc (links : list string) :
  forall acc,
    let r := fold_left
               (fun maxPagina link =>
                  match parseInt (txt (js_trim link)) with
                  | Some numero => if maxPagina <? numero then numero else maxPagina
                  | None => maxPagina
                  end) links acc in
    acc <= r
    /\ (forall link n, link ∈ links -> parseInt (txt (js_trim link)) = Some n -> n <= r)
    /\ (r = acc \/ exists link, link ∈ links /\ parseInt (txt (js_trim link)) = Some r).
Proof.
  induction links as [|link links IH]; intros acc; cbn zeta.
  - cbn [fold_left]. split; [lia |]. split; [| by left].
    intros link n Hin. by apply elem_of_nil in Hin.
  - cbn [fold_left].
    set (acc' := match parseInt (txt (js_trim link)) with
                 | Some numero => if acc <? numero then numero else acc
                 | None => acc
                 end).
    destruct (IH acc') as (Hle & Hmax & Hatt).
    assert (Hacc : acc <= acc').
    { unfold acc'. destruct (parseInt _) as [n|]; [| lia].
      destruct (acc <? n) eqn:Hn; [apply Z.ltb_lt in Hn |]; lia. }
    split; [lia |]. split.
    + intros l n Hin Hn. apply elem_of_cons in Hin. destruct Hin as [-> | Hin].
      * assert (n <= acc'); [| lia]. unfold acc'. rewrite Hn.
        destruct (acc <? n) eqn:Hlt; [lia | apply Z.ltb_ge in Hlt; lia].
      * by apply (Hmax l).
    + destruct Hatt as [Heq | (l & Hl & Hn)].
      * rewrite Heq. unfold acc'.
        destruct (parseInt (txt (js_trim link))) as [n|] eqn:Hn; [| by left].
        destruct (acc <? n); [| by left].
        right. exists link. split; [by left | exact Hn].
      * right. exists l. split; [by right | exact Hn].
Qed.

Lemma pagina_atual_casos parametro :
  pagina_atual parametro = 1
  \/ exists s, parametro = Some s /\ parseInt (txt s) = Some (pagina_atual parametro).
Proof.
  unfold pagina_atual. destruct parametro as [s|]; [| by left].
  destruct (parseInt (txt s)) as [n|] eqn:Hn; [| by left].
  destruct (n =? 0); [by left |]. right. by exists s.
Qed.

(** X8: the page count the script computes is at least 1 and at least
    every number a pagination link starts with; and it is 1, or the
    number of one of the links, or the number in the [pagina] parameter
    of the URL.  When the script returns it, [detectar_total_paginas] is
    that count. *)
Theorem script_paginacao_maximo (d : paginacao_dom) :
  1 <= script_paginacao d
  /\ (forall link n, link ∈ rotulos d ->
        parseInt (txt (js_trim link)) = Some n -> n <= script_paginacao d)
  /\ (script_paginacao d = 1
      \/ (exists link, link ∈ rotulos d
            /\ parseInt (txt (js_trim link)) = Some (script_paginacao d))
      \/ (exists s, parametro_pagina d = Some s
            /\ parseInt (txt s) = Some (script_paginacao d)))
  /\ (forall m, paginacao m = Retorna (script_paginacao d) ->
        detectar_total_paginas m = script_paginacao d).
Proof.
  unfold script_paginacao, maior_rotulo.
  destruct (maior_rotulo_acc (rotulos d) 1) as (Hle & Hmax & Hatt).
  cbn zeta in *.
  set (r := fold_left _ (rotulos d) 1) in *.
  split; [lia |]. split; [| split].
  - intros link n Hin Hn. pose proof (Hmax link n Hin Hn). lia.
  - destruct (Z.max_spec r (pagina_atual (parametro_pagina d))) as [[Hlt ->] | [Hge ->]].
    + destruct (pagina_atual_casos (parametro_pagina d)) as [-> | H]; [by left |].
      right. by right.
    + destruct Hatt as [-> | H]; [by left |]. right. by left.
  - intros m Hm. unfold detectar_total_paginas. rewrite Hm. lia.
Qed.

(** ** More on the category walker *)

(** The URL page [k] is reached by. *)
Lemma colhidos_campos m cat k (p : produto) :
  p ∈ colhidos m cat k ->
  p !! "fonte"%string
    = Some (VStr (if 1 <? k then url_da_pagina (c_url cat) k else c_url cat))
  /\ p !! "categoria"%string = Some (VStr (c_nome cat))
  /\ p !! "data_scraping"%string = Some (VStr (relogio m k)).
Proof.
  unfold colhidos. destruct (visita m cat k) as [ps | e] eqn:Hv;
    [| intros H; by apply elem_of_nil in H].
  unfold marcar_fonte. intros Hp. apply list_elem_of_fmap in Hp.
  destruct Hp as (q & -> & Hq).
  unfold visita in Hv.
  destruct (if 1 <? k then ir_pagina m k else Retorna ()); [| discriminate].
  destruct (dom_pagina m k) as [dom | e]; [| discriminate].
  destruct (extrair_campos _ _ _ _ _ Hv Hq) as [Hc Hd].
  split; [by simplify_map_eq |]. split; by simplify_map_eq.
Qed.

(** When no page from [a >= 2] on is empty, the loop runs to the end. *)
Lemma percorrer_completo m cat :
  forall d a len visitas todos,
    d = Z.to_nat len -> 2 <= a ->
    (forall k, a <= k < a + len -> visita m cat k <> Retorna []) ->
    percorrer m cat (seqZ a len) visitas todos
    = (visitas ++ (url_da_pagina (c_url cat) <$> seqZ a len),
       todos ++ concat (colhidos m cat <$> seqZ a len)).
Proof.
  induction d as [|d IH]; intros a len visitas todos Hd Ha Hk.
  - rewrite !seqZ_nil by lia. cbn. by rewrite !app_nil_r.
  - rewrite (seqZ_cons a len) by lia.
    rewrite percorrer_pagina_seguinte; [| lia | apply Hk; lia].
    rewrite (IH (Z.succ a) (Z.pred len)); [| lia | lia | intros k Hk'; apply Hk; lia].
    rewrite !fmap_cons. cbn [concat]. by rewrite <- !app_assoc.
Qed.

(** X9: when the category page opens and settles and no page after the
    first is empty, every page up to the clamped page count is visited,
    in order, and the result is the records of all of them in page
    order; a page whose visit raised is passed over and contributes
    none. *)
Theorem percurso_completo (m : mundo) (cat : categoria) (max_paginas : Z) :
  ir_base m = Retorna 200 -> assentar_base m = Retorna () ->
  1 <= max_paginas ->
  (forall k, 1 < k <= Z.min (detectar_total_paginas m) max_paginas ->
             visita m cat k <> Retorna []) ->
  scrape_categoria_com_paginacao m cat max_paginas
  = (c_url cat
       :: (url_da_pagina (c_url cat)
             <$> seqZ 2 (Z.min (detectar_total_paginas m) max_paginas - 1)),
     concat (colhidos m cat
               <$> seqZ 1 (Z.min (detectar_total_paginas m) max_paginas))).
Proof.
  intros Hbase Hass Hmax Hk. unfold scrape_categoria_com_paginacao.
  rewrite Hbase, Hass. change (negb (200 =? 200)) with false. cbv iota.
  set (total := Z.min (detectar_total_paginas m) max_paginas) in *.
  assert (Htotal : 1 <= total).
  { unfold total, detectar_total_paginas. destruct (paginacao m); lia. }
  rewrite (seqZ_cons 1 total) by lia. rewrite percorrer_pagina_1.
  change (Z.succ 1) with 2.
  rewrite (percorrer_completo m cat (Z.to_nat (Z.pred total)));
    [| reflexivity | lia | intros k Hk'; apply Hk; lia].
  rewrite fmap_cons. cbn [concat app].
  replace (Z.pred total) with (total - 1) by lia. reflexivity.
Qed.

Lemma percurso_completo_witness :
  scrape_categoria_com_paginacao
    (Mundo (Retorna 200) (Retorna ()) (Retorna 3)
       (fun n => if n =? 2 then Levanta (Excecao 1) else Retorna ())
       (fun _ => Retorna [elemento_ex "Grelha" "https://loja/grelha" "R$ 99,90"])
       (fun _ => "2025-01-27T10:00:00"%string))
    cat_ex 20
  = (c_url cat_ex :: (url_da_pagina (c_url cat_ex) <$> seqZ 2 (3 - 1)),
     concat (colhidos
               (Mundo (Retorna 200) (Retorna ()) (Retorna 3)
                  (fun n => if n =? 2 then Levanta (Excecao 1) else Retorna ())
                  (fun _ => Retorna [elemento_ex "Grelha" "https://loja/grelha" "R$ 99,90"])
                  (fun _ => "2025-01-27T10:00:00"%string))
               cat_ex <$> seqZ 1 3)).
Proof.
  apply (percurso_completo
           (Mundo (Retorna 200) (Retorna ()) (Retorna 3)
              (fun n => if n =? 2 then Levanta (Excecao 1) else Retorna ())
              (fun _ => Retorna [elemento_ex "Grelha" "https://loja/grelha" "R$ 99,90"])
              (fun _ => "2025-01-27T10:00:00"%string))
           cat_ex 20 eq_refl eq_refl); [lia |].
  intros k Hk. change (Z.min _ 20) with 3 in Hk.
  assert (k = 2 \/ k = 3) as [-> | ->] by lia;
    apply (bool_decide_unpack _); vm_compute; exact I.
Defined.

(** What the loop adds to its state. *)
Lemma percorrer_inv m cat paginas :
  forall visitas todos,
    exists mais novos,
      percorrer m cat paginas visitas todos = (visitas ++ mais, todos ++ novos)
      /\ (length mais <= length paginas)%nat
      /\ (forall u, u ∈ mais ->
            exists k, k ∈ paginas /\ 1 < k /\ u = url_da_pagina (c_url cat) k)
      /\ (forall p, p ∈ novos ->
            exists k, k ∈ paginas /\ p ∈ colhidos m cat k
              /\ (1 < k -> url_da_pagina (c_url cat) k ∈ mais)).
Proof.
  induction paginas as [|n resto IH]; intros visitas todos.
  - exists [], []. cbn [percorrer]. rewrite !app_nil_r. split; [reflexivity |].
    split; [reflexivity |]. split; intros x Hx; by apply elem_of_nil in Hx.
  - destruct (decide (1 < n)) as [Hn | Hn].
    + assert (Hdec : visita m cat n = Retorna [] \/ visita m cat n <> Retorna []).
      { destruct (visita m cat n) as [[|q qs] | e]; [by left | by right | by right]. }
      destruct Hdec as [Hv | Hv].
      * rewrite (percorrer_pagina_vazia _ _ _ _ _ _ Hn Hv).
        exists [url_da_pagina (c_url cat) n], []. rewrite app_nil_r.
        split; [reflexivity |]. split; [simpl; lia |]. split.
        -- intros u Hu. apply list_elem_of_singleton in Hu. subst u.
           exists n. split; [by left | by split].
        -- intros p Hp. by apply elem_of_nil in Hp.
      * rewrite (percorrer_pagina_seguinte _ _ _ _ _ _ Hn Hv).
        destruct (IH (visitas ++ [url_da_pagina (c_url cat) n])
                     (todos ++ colhidos m cat n))
          as (mais & novos & -> & Hlen & Hmais & Hnovos).
        exists (url_da_pagina (c_url cat) n :: mais), (colhidos m cat n ++ novos).
        rewrite <- !app_assoc. split; [reflexivity |].
        split; [simpl; lia |]. split.
        -- intros u Hu. apply elem_of_cons in Hu. destruct Hu as [-> | Hu].
           ++ exists n. split; [by left | by split].
           ++ destruct (Hmais u Hu) as (k & Hk & Hk1 & ->).
              exists k. split; [by right | by split].
        -- intros p Hp. apply elem_of_app in Hp. destruct Hp as [Hp | Hp].
           ++ exists n. split; [by left |]. split; [exact Hp |]. intros _. by left.
           ++ destruct (Hnovos p Hp) as (k & Hk & Hpk & Hu).
              exists k. split; [by right |]. split; [exact Hpk |].
              intros Hk1. right. by apply Hu.
    + assert (Hn' : (1 <? n) = false) by (apply Z.ltb_ge; lia).
      assert (Heq : percorrer m cat (n :: resto) visitas todos
                    = percorrer m cat resto visitas (todos ++ colhidos m cat n)).
      { cbn [percorrer]. unfold colhidos. rewrite Hn'.
        destruct (visita m cat n) as [[|p ps] | e]; rewrite ?app_nil_r; reflexivity. }
      rewrite Heq.
      destruct (IH visitas (todos ++ colhidos m cat n))
        as (mais & novos & -> & Hlen & Hmais & Hnovos).
      exists mais, (colhidos m cat n ++ novos). rewrite <- app_assoc.
      split; [reflexivity |]. split; [simpl; lia |]. split.
      * intros u Hu. destruct (Hmais u Hu) as (k & Hk & Hk1 & ->).
        exists k. split; [by right | by split].
      * intros p Hp. apply elem_of_app in Hp. destruct Hp as [Hp | Hp].
        -- exists n. split; [by left |]. split; [exact Hp |]. intros Hc. lia.
        -- destruct (Hnovos p Hp) as (k & Hk & Hpk & Hu).
           exists k. split; [by right |]. split; [exact Hpk | exact Hu].
Qed.

(** X10: whatever the site answers, the walker requests the category
    URL first and then only page URLs [?pagina=k] with
    [2 <= k <= min(detected, max_paginas)], at most
    [max(1, max_paginas)] requests in all; and every record it returns
    carries the category name and, as [fonte], a URL that was
    requested. *)
Theorem percurso_limitado (m : mundo) (cat : categoria) (max_paginas : Z) :
  let r := scrape_categoria_com_paginacao m cat max_paginas in
  (exists mais, r.1 = c_url cat :: mais
     /\ forall u, u ∈ mais ->
          exists k, 2 <= k <= Z.min (detectar_total_paginas m) max_paginas
                    /\ u = url_da_pagina (c_url cat) k)
  /\ (length r.1 <= Z.to_nat (Z.max 1 max_paginas))%nat
  /\ (forall p : produto, p ∈ r.2 ->
        p !! "categoria"%string = Some (VStr (c_nome cat))
        /\ exists u, u ∈ r.1 /\ p !! "fonte"%string = Some (VStr u)).
Proof.
  cbn zeta. unfold scrape_categoria_com_paginacao.
  assert (Hvazio : forall r : list string * list produto, r = ([c_url cat], []) ->
            (exists mais, r.1 = c_url cat :: mais
               /\ forall u, u ∈ mais ->
                    exists k, 2 <= k <= Z.min (detectar_total_paginas m) max_paginas
                              /\ u = url_da_pagina (c_url cat) k)
            /\ (length r.1 <= Z.to_nat (Z.max 1 max_paginas))%nat
            /\ (forall p : produto, p ∈ r.2 ->
                  p !! "categoria"%string = Some (VStr (c_nome cat))
                  /\ exists u, u ∈ r.1 /\ p !! "fonte"%string = Some (VStr u))).
  { intros r ->. cbn [fst snd]. split; [| split].
    - exists []. split; [reflexivity |]. intros u Hu. by apply elem_of_nil in Hu.
    - cbn [length]. lia.
    - intros p Hp. by apply elem_of_nil in Hp. }
  destruct (ir_base m) as [status | e]; [| by apply Hvazio].
  destruct (negb (status =? 200)); [by apply Hvazio |].
  destruct (assentar_base m) as [[] | e]; [| by apply Hvazio].
  set (total := Z.min (detectar_total_paginas m) max_paginas).
  destruct (decide (total <= 0)) as [Hle | Hgt].
  { rewrite seqZ_nil by lia. by apply Hvazio. }
  rewrite (seqZ_cons 1 total) by lia. rewrite percorrer_pagina_1.
  change (Z.succ 1) with 2.
  destruct (percorrer_inv m cat (seqZ 2 (Z.pred total)) [c_url cat] ([] ++ colhidos m cat 1))
    as (mais & novos & -> & Hlen & Hmais & Hnovos).
  cbn [fst snd app]. split; [| split].
  - exists mais. split; [reflexivity |]. intros u Hu.
    destruct (Hmais u Hu) as (k & Hk & _ & ->). exists k. split; [| reflexivity].
    apply elem_of_seqZ in Hk. lia.
  - rewrite length_seqZ in Hlen. cbn [length]. unfold total in *. lia.
  - intros p Hp. apply elem_of_app in Hp. destruct Hp as [Hp | Hp].
    + destruct (colhidos_campos _ _ _ _ Hp) as (Hf & Hc & _).
      split; [exact Hc |]. exists (c_url cat). split; [by left | exact Hf].
    + destruct (Hnovos p Hp) as (k & Hk & Hpk & Hu).
      destruct (colhidos_campos _ _ _ _ Hpk) as (Hf & Hc & _).
      split; [exact Hc |]. apply elem_of_seqZ in Hk.
      assert (Hk1 : 1 < k) by lia.
      exists (url_da_pagina (c_url cat) k). split; [right; by apply Hu |].
      rewrite Hf. apply Z.ltb_lt in Hk1. by rewrite Hk1.
Qed.

(** ** More on the retry loop *)




(** Either some attempt is the first successful one, or none is. *)
Lemma primeiro_sucesso (scrape : Z -> py (list produto)) (n : nat) :
  (exists i, 1 <= i <= Z.of_nat n /\ sucesso (scrape i)
             /\ forall k, 1 <= k < i -> ~ sucesso (scrape k))
  \/ (forall k, 1 <= k <= Z.of_nat n -> ~ sucesso (scrape k)).
Proof.
  induction n as [|n [(i & Hi & Hs & Hk) | Hk]].
  - right. intros k Hk. lia.
  - left. exists i. split; [lia | by split].
  - destruct (scrape (Z.of_nat (S n))) as [[|p ps] | e] eqn:Hn.
    + right. intros k Hk' (p & ps & Hs).
      destruct (decide (k = Z.of_nat (S n))) as [-> | Hne]; [congruence |].
      apply (Hk k); [lia | by exists p, ps].
    + left. exists (Z.of_nat (S n)). split; [lia |]. split; [by exists p, ps |].
      intros k Hk'. apply Hk. lia.
    + right. intros k Hk' (p & ps & Hs).
      destruct (decide (k = Z.of_nat (S n))) as [-> | Hne]; [congruence |].
      apply (Hk k); [lia | by exists p, ps].
Qed.

(** X12: what the retry loop can return.  A non-empty list is the
    result of the first attempt that returned one; an exception is the
    one the final attempt raised, after no attempt was successful; and
    the empty list means that no attempt was successful and that the
    final attempt, if there was one, returned the empty list. *)
Theorem retry_resultado (scrape : Z -> py (list produto)) (max_tentativas : Z) :
  match (scrape_com_retry scrape max_tentativas).2 with
  | Retorna (p :: ps) =>
      exists i, 1 <= i <= max_tentativas /\ scrape i = Retorna (p :: ps)
                /\ forall k, 1 <= k < i -> ~ sucesso (scrape k)
  | Retorna [] =>
      (forall k, 1 <= k <= max_tentativas -> ~ sucesso (scrape k))
      /\ (1 <= max_tentativas -> scrape max_tentativas = Retorna [])
  | Levanta e =>
      1 <= max_tentativas /\ scrape max_tentativas = Levanta e
      /\ forall k, 1 <= k <= max_tentativas -> ~ sucesso (scrape k)
  end.
Proof.
  unfold scrape_com_retry.
  destruct (decide (max_tentativas <= 0)) as [Hle | Hgt].
  { rewrite seqZ_nil by lia. cbn. split; intros; lia. }
  destruct (primeiro_sucesso scrape (Z.to_nat max_tentativas))
    as [(i & Hi & (p & ps & Hs) & Hk) | Hk].
  - rewrite (tentar_ate_sucesso scrape max_tentativas i p ps ltac:(lia) Hs
               (Z.to_nat (i - 1))); [| reflexivity | lia | lia |].
    + cbn [snd]. exists i. split; [lia | by split].
    + intros k Hk'. apply Hk. lia.
  - assert (Hk' : forall k, 1 <= k <= max_tentativas -> ~ sucesso (scrape k)).
    { intros k Hk'. apply Hk. lia. }
    replace (seqZ 1 max_tentativas) with (seqZ 1 (max_tentativas + 1 - 1))
      by (f_equal; lia).
    rewrite (tentar_sem_sucesso scrape max_tentativas (Z.to_nat (max_tentativas - 1)));
      [| reflexivity | lia | exact Hk'].
    cbn [snd]. destruct (scrape max_tentativas) as [[|p ps] | e] eqn:Hm.
    + by split.
    + exfalso. apply (Hk' max_tentativas); [lia |]. by exists p, ps.
    + split; [lia | by split].
Qed.

(** ** More on the persister *)

(** What a conflicting upsert does to a stored row: the row stays, with
    its link, its [id] and its [criado_em]; a row with another link is
    not touched. *)
Lemma em_conflito_preserva agora v ls ls' l :
  em_conflito agora v ls = Some ls' -> l ∈ ls ->
  exists l', l' ∈ ls' /\ l_link l' = l_link l /\ l_id l' = l_id l
             /\ l_criado_em l' = l_criado_em l
             /\ (l_link l <> v_link v -> l' = l).
Proof.
  revert ls'. induction ls as [|x t IH]; intros ls' He Hl;
    [by apply elem_of_nil in Hl |].
  cbn [em_conflito] in He. destruct (decide (l_link x = v_link v)) as [Hx | Hx].
  - injection He as <-. apply elem_of_cons in Hl. destruct Hl as [-> | Hl].
    + exists (linha_atualizada agora v x). split; [by left |].
      repeat split; try reflexivity. intros Hne. congruence.
    + exists l. split; [by right | by repeat split].
  - destruct (em_conflito agora v t) as [t'|] eqn:Het; [| discriminate].
    injection He as <-. apply elem_of_cons in Hl. destruct Hl as [-> | Hl].
    + exists x. split; [by left | by repeat split].
    + destruct (IH t' eq_refl Hl) as (l' & Hin & H).
      exists l'. split; [by right | exact H].
Qed.




Lemma upsert_sql_preserva agora v b l :
  l ∈ linhas b ->
  exists l', l' ∈ linhas (upsert_sql agora v b).1
    /\ l_link l' = l_link l /\ l_id l' = l_id l
    /\ l_criado_em l' = l_criado_em l
    /\ (l_link l <> v_link v -> l' = l).
Proof.
  intros Hl. unfold upsert_sql.
  destruct (em_conflito agora v (linhas b)) as [ls|] eqn:He; cbn [fst linhas].
  - by apply (em_conflito_preserva agora v (linhas b)).
  - exists l. split; [apply elem_of_app; by left | by repeat split].
Qed.



Section PersistenciaMais.

Variable fromisoformat : list ascii -> py datetime.

Lemma gravar_links_unicos agora produtos :
  forall b st, links_unicos b ->
    links_unicos (gravar fromisoformat agora produtos b st).2.
Proof.
  induction produtos as [|p resto IH]; intros b st Hu; [exact Hu |].
  destruct (preparar fromisoformat p) as [v | e] eqn:Hp.
  - rewrite (gravar_ok _ _ _ _ _ _ _ Hp). apply IH.
    by apply upsert_sql_links_unicos.
  - rewrite (gravar_erro _ _ _ _ _ _ _ Hp). by apply IH.
Qed.

Lemma salvar_postgres_indisponivel amb conn_dada produtos b :
  indisponivel amb conn_dada ->
  salvar_postgres fromisoformat amb conn_dada produtos b
  = (Estatisticas 0 0 (length produtos), b).
Proof.
  unfold salvar_postgres. destruct produtos as [|p resto]; [reflexivity |].
  intros [[-> ->] | [Hc | Hc]]; [reflexivity | |].
  - rewrite Hc. by destruct (negb conn_dada && negb (conecta amb)).
  - rewrite Hc. destruct (negb conn_dada && negb (conecta amb)); [reflexivity |].
    destruct (negb (cursor_ok amb)); [reflexivity |].
    by destruct (gravar _ _ _ _ _).
Qed.

Lemma disponivel_ou_nao amb conn_dada :
  disponivel amb conn_dada \/ indisponivel amb conn_dada.
Proof.
  unfold disponivel, indisponivel.
  destruct conn_dada, (conecta amb), (cursor_ok amb), (commit_ok amb); tauto.
Qed.

(** X13: [UNIQUE(link)] is an invariant of [salvar_postgres]: whatever
    the batch and whatever the connection does, a table with distinct
    links is left with distinct links. *)
Theorem salvar_postgres_links_unicos (amb : ambiente) (conn_dada : bool)
    (produtos : list produto) (b : banco) :
  links_unicos b ->
  links_unicos (salvar_postgres fromisoformat amb conn_dada produtos b).2.
Proof.
  intros Hu. destruct (disponivel_ou_nao amb conn_dada) as [Hd | Hi].
  - rewrite (salvar_postgres_disponivel _ _ _ _ _ Hd). by apply gravar_links_unicos.
  - by rewrite (salvar_postgres_indisponivel _ _ _ _ Hi).
Qed.



Lemma gravar_preserva agora produtos :
  forall b st l, l ∈ linhas b ->
    exists l', l' ∈ linhas (gravar fromisoformat agora produtos b st).2
      /\ l_link l' = l_link l /\ l_id l' = l_id l
      /\ l_criado_em l' = l_criado_em l
      /\ ((forall p v, p ∈ produtos -> preparar fromisoformat p = Retorna v ->
                       v_link v <> l_link l) -> l' = l).
Proof.
  induction produtos as [|p resto IH]; intros b st l Hl.
  - exists l. split; [exact Hl | by repeat split].
  - destruct (preparar fromisoformat p) as [v | e] eqn:Hp.
    + rewrite (gravar_ok _ _ _ _ _ _ _ Hp).
      destruct (upsert_sql_preserva agora v b l Hl) as (l1 & Hl1 & Hk1 & Hi1 & Hc1 & Hf1).
      destruct (IH (upsert_sql agora v b).1
                   (if (upsert_sql agora v b).2
                    then Estatisticas (S (inseridos st)) (atualizados st) (erros st)
                    else Estatisticas (inseridos st) (S (atualizados st)) (erros st))
                   l1 Hl1) as (l' & Hl' & Hk & Hi & Hc & Hf).
      exists l'. split; [exact Hl' |].
      split; [congruence |]. split; [congruence |]. split; [congruence |].
      intros Hfora. assert (l1 = l) as ->.
      { apply Hf1. intros Heq. apply (Hfora p v); [by left | exact Hp | by symmetry]. }
      apply Hf. intros q w Hq Hw. apply (Hfora q w); [by right | exact Hw].
    + rewrite (gravar_erro _ _ _ _ _ _ _ Hp).
      destruct (IH b (Estatisticas (inseridos st) (atualizados st) (S (erros st))) l Hl)
        as (l' & Hl' & Hk & Hi & Hc & Hf).
      exists l'. split; [exact Hl' |]. do 3 (split; [assumption |]).
      intros Hfora. apply Hf. intros q w Hq Hw. apply (Hfora q w); [by right | exact Hw].
Qed.

(** X15: [salvar_postgres] never removes a row and never changes the
    identity of one: for every stored row the committed table holds a
    row with the same link, the same [id] and the same [criado_em]; and
    a row whose link is the link of no record of the batch that reaches
    the database is there unchanged. *)
Theorem salvar_postgres_preserva (amb : ambiente) (conn_dada : bool)
    (produtos : list produto) (b : banco) (l : linha) :
  l ∈ linhas b ->
  exists l', l' ∈ linhas (salvar_postgres fromisoformat amb conn_dada produtos b).2
    /\ l_link l' = l_link l /\ l_id l' = l_id l
    /\ l_criado_em l' = l_criado_em l
    /\ ((forall p v, p ∈ produtos -> preparar fromisoformat p = Retorna v ->
                     v_link v <> l_link l) -> l' = l).
Proof.
  intros Hl. destruct (disponivel_ou_nao amb conn_dada) as [Hd | Hi].
  - rewrite (salvar_postgres_disponivel _ _ _ _ _ Hd). by apply gravar_preserva.
  - rewrite (salvar_postgres_indisponivel _ _ _ _ Hi).
    exists l. split; [exact Hl | by repeat split].
Qed.





End PersistenciaMais.

Lemma salvar_postgres_links_unicos_witness :
  links_unicos
    (salvar_postgres iso_basico (amb_ex 100) false
       [produto_ex "https://loja/p1" "2025-01-27T10:00:00";
        produto_ex "https://loja/p1" "2025-01-27T10:00:00";
        produto_ex "https://loja/p2" "ontem"] (Banco [] 1)).2.
Proof.
  apply salvar_postgres_links_unicos. apply NoDup_nil_2.
Defined.

Lemma salvar_postgres_preserva_witness :
  exists l', l' ∈ linhas
               (salvar_postgres iso_basico (amb_ex 200) false
                  [produto_ex "https://loja/p2" "2025-01-27T10:00:00"]
                  (Banco [linha_nova 100 1 (parametros_ex "https://loja/p1")] 2)).2
    /\ l' = linha_nova 100 1 (parametros_ex "https://loja/p1").
Proof.
  destruct (salvar_postgres_preserva iso_basico (amb_ex 200) false
              [produto_ex "https://loja/p2" "2025-01-27T10:00:00"]
              (Banco [linha_nova 100 1 (parametros_ex "https://loja/p1")] 2)
              (linha_nova 100 1 (parametros_ex "https://loja/p1")))
    as (l' & Hl' & _ & _ & _ & Hf); [by left |].
  exists l'. split; [exact Hl' |]. apply Hf.
  intros p v Hp Hv. apply list_elem_of_singleton in Hp. subst p.
  rewrite preparar_ex in Hv. injection Hv as <-. discriminate.
Defined.



(** ** The crawl over the categories *)





(** ** From the walk to the table *)



Section Encadeamento.

Variable fromisoformat : list ascii -> py datetime.



End Encadeamento.


(** ** The summary and [main] *)

Lemma soma_resumo_insert (resumo : gmap valor_py nat) k n :
  (soma_resumo (<[k := n]> resumo) + default 0 (resumo !! k))%nat
  = (n + soma_resumo resumo)%nat.
Proof.
  unfold soma_resumo.
  destruct (resumo !! k) as [x|] eqn:Hk; cbn [from_option id].
  - rewrite <- (insert_delete_eq resumo k n).
    rewrite map_fold_insert_L; [| intros; lia | apply lookup_delete_eq].
    rewrite (map_fold_delete_L _ _ k x resumo); [lia | intros; lia | exact Hk].
  - rewrite map_fold_insert_L; [lia | intros; lia | exact Hk].
Qed.

Lemma contar_categorias_soma produtos :
  forall resumo,
    soma_resumo (contar_categorias produtos resumo)
    = (soma_resumo resumo + length produtos)%nat.
Proof.
  induction produtos as [|p resto IH]; intros resumo; cbn [contar_categorias length];
    [lia |].
  rewrite IH.
  pose proof (soma_resumo_insert resumo (categoria_de p)
                (default 0%nat (resumo !! categoria_de p) + 1)%nat). lia.
Qed.

(** Number of records of a category. *)
Lemma contar_categorias_lookup produtos :
  forall resumo c,
    default 0%nat (contar_categorias produtos resumo !! c)
    = (default 0%nat (resumo !! c)
       + length (filter (fun p => categoria_de p = c) produtos))%nat.
Proof.
  induction produtos as [|p resto IH]; intros resumo c; cbn [contar_categorias];
    [cbn; lia |].
  rewrite IH. destruct (decide (categoria_de p = c)) as [Hc | Hc].
  - rewrite filter_cons_True by exact Hc. rewrite Hc, lookup_insert_eq.
    cbn [from_option id length]. lia.
  - rewrite filter_cons_False by exact Hc. by rewrite lookup_insert_ne.
Qed.

Lemma contar_categorias_chaves produtos :
  forall resumo c,
    (forall k n, resumo !! k = Some n -> (0 < n)%nat) ->
    forall n, contar_categorias produtos resumo !! c = Some n -> (0 < n)%nat.
Proof.
  induction produtos as [|p resto IH]; intros resumo c Hpos n; cbn [contar_categorias];
    [apply Hpos |].
  apply IH. intros k m Hk. destruct (decide (categoria_de p = k)) as [<- | Hne].
  - rewrite lookup_insert_eq in Hk. injection Hk as <-. lia.
  - rewrite lookup_insert_ne in Hk by exact Hne. by apply (Hpos k).
Qed.

(** X20: the per-category summary holds, for each category value, the
    number of records that carry it (records without the key count
    under ['Sem categoria']), has no entry for a value no record
    carries, and its counts add up to the number of records. *)
Theorem resumo_por_categoria_contagem (produtos : list produto) :
  (forall c,
     resumo_por_categoria produtos !! c
     = let n := length (filter (fun p => categoria_de p = c) produtos) in
       if (n =? 0)%nat then None else Some n)
  /\ soma_resumo (resumo_por_categoria produtos) = length produtos.
Proof.
  unfold resumo_por_categoria. split.
  - intros c. cbn zeta.
    pose proof (contar_categorias_lookup produtos ∅ c) as Hl.
    rewrite lookup_empty in Hl. cbn [from_option id Nat.add] in Hl.
    destruct (contar_categorias produtos ∅ !! c) as [n|] eqn:Hc;
      cbn [from_option id] in Hl.
    + assert (0 < n)%nat as Hn.
      { apply (contar_categorias_chaves produtos ∅ c); [| exact Hc].
        intros k m Hk. by rewrite lookup_empty in Hk. }
      rewrite <- Hl. destruct n; [lia | reflexivity].
    + by rewrite <- Hl.
  - rewrite contar_categorias_soma. unfold soma_resumo. by rewrite map_fold_empty.
Qed.


Section MainProps.

Variable fromisoformat : list ascii -> py datetime.



End MainProps.

(** ** Batches in parts *)

Section Lotes.

Variable fromisoformat : list ascii -> py datetime.



End Lotes.


(** ** Page URLs *)

Lemma append_inj_l (s t1 t2 : string) : (s +:+ t1 = s +:+ t2)%string -> t1 = t2.
Proof. induction s as [|c s IH]; cbn; [done |]. intros [= H]. by apply IH. Qed.

Lemma append_diferente (s t : string) : t <> ""%string -> (s +:+ t)%string <> s.
Proof.
  intros Ht. induction s as [|c s IH]; cbn; [exact Ht |]. intros [= H]. by apply IH.
Qed.

(** X23: the URL of a page identifies it: two page numbers with the
    same page URL are equal, and no page URL is the category URL
    itself. *)
Theorem url_da_pagina_inj (url_base : string) (k1 k2 : Z) :
  (url_da_pagina url_base k1 = url_da_pagina url_base k2 -> k1 = k2)
  /\ url_da_pagina url_base k1 <> url_base.
Proof.
  unfold url_da_pagina. split.
  - intros H. apply append_inj_l in H. apply (append_inj_l "?pagina=") in H.
    by apply (inj pretty).
  - apply append_diferente. discriminate.
Qed.

(** ** The price of an extracted record *)

Lemma txt_append (s t : string) : txt (s +:+ t) = txt s ++ txt t.
Proof.
  induction s as [|c s IH]; [reflexivity |].
  change (String c s +:+ t)%string with (String c (s +:+ t)).
  cbn [list_ascii_of_string app]. by rewrite IH.
Qed.

(** The cleaned text of a doubled symbol carries it once. *)
Lemma preco_limpo_cifrao_duplo ws resto :
  forallb py_space ws = true -> ocorrencias (txt "R$") resto = 0%nat ->
  ocorrencias (txt "R$") (preco_limpo_de (txt "R$" ++ ws ++ txt "R$" ++ resto))
  = 1%nat.
Proof.
  intros Hws Hoc. unfold preco_limpo_de.
  rewrite (re_sub_cifrao_duplo _ _ Hws Hoc).
  set (t := re_sub re_espacos (txt " ") (txt "R$" ++ resto)).
  destruct (strip_partes py_space t) as (l & r & Hp & Hl & Hr).
  transitivity (ocorrencias (txt "R$") t).
  { rewrite Hp at 2. by rewrite ocorrencias_apos_espacos, ocorrencias_antes_espacos. }
  unfold t, re_sub. rewrite sub_espacos_ocorrencias by reflexivity.
  cbn [list_ascii_of_string app]. rewrite ocorrencias_cifrao_cons.
  cbn [head from_option]. rewrite !e_char_refl. cbn [andb].
  rewrite ocorrencias_cifrao_cons. change (e_char "R" "$") with false.
  cbn [andb Nat.add]. by rewrite Hoc.
Qed.

Lemma item_do_elemento_campo_preco product :
  completo product = true ->
  exists x, item_do_elemento product = Some x
    /\ x !! "preco"%string
       = Some (VStr (ou (Some match e_preco_venda product with
                              | Some t => ("R$ " +:+ js_trim t)%string
                              | None => ou (js_trim <$> e_preco_parcela product) ""
                              end) "Consultar")).
Proof.
  unfold completo, item_do_elemento. intros Hc.
  apply andb_prop in Hc. destruct Hc as [Hc Hl].
  apply andb_prop in Hc. destruct Hc as [Hf Hn].
  apply negb_true_iff in Hf. rewrite Hf, Hn, Hl. cbn [andb].
  eexists. split; [reflexivity |].
  rewrite !lookup_insert_ne by done. by rewrite lookup_insert_eq.
Qed.

(** X24: what the price fields of the record of one complete element
    are.  When the sale price text already starts with the currency
    symbol, the prefix the script adds doubles it, and the stored
    [preco_texto] carries it once, with its whitespace in normal form;
    when the element has neither a sale price nor an installment price,
    the record says ['Consultar'] and has no value. *)
Theorem extrair_preco (product : elemento) (categoria_nome ts : string) :
  completo product = true ->
  (forall t resto,
     e_preco_venda product = Some t ->
     txt (js_trim t) = txt "R$" ++ resto ->
     ocorrencias (txt "R$") resto = 0%nat ->
     exists (p : produto) texto,
       extrair_produtos_pagina [product] categoria_nome ts = Retorna [p]
       /\ p !! "preco"%string = Some (VStr ("R$ " +:+ js_trim t))
       /\ p !! "preco_texto"%string = Some (VStr texto)
       /\ ocorrencias (txt "R$") (txt texto) = 1%nat
       /\ colapsado (txt texto) = true)
  /\ (e_preco_venda product = None -> e_preco_parcela product = None ->
      exists p : produto,
        extrair_produtos_pagina [product] categoria_nome ts = Retorna [p]
        /\ p !! "preco"%string = Some (VStr "Consultar")
        /\ p !! "preco_texto"%string = Some (VStr "Consultar")
        /\ p !! "preco_valor"%string = Some VNone).
Proof.
  intros Hc. destruct (item_do_elemento_campo_preco _ Hc) as (x & Hx & Hpreco).
  unfold extrair_produtos_pagina. rewrite itens_da_pagina_cons, Hx.
  unfold itens_da_pagina. cbn [omap list_omap para_cada]. unfold enriquecer.
  rewrite Hpreco. split.
  - intros t resto Ht Htrim Hoc. rewrite Ht. cbn [ou].
    assert (Hraw : txt ("R$ " +:+ js_trim t)
                   = txt "R$" ++ txt " " ++ txt "R$" ++ resto).
    { by rewrite txt_append, Htrim. }
    rewrite bool_decide_eq_false_2 by discriminate.
    destruct (limpar_preco_forma ("R$ " +:+ js_trim t)) as (v & Hlp & _);
      [discriminate | discriminate |].
    rewrite Hlp. cbn [texto valor]. eexists _, _. split; [reflexivity |].
    split; [rewrite !lookup_insert_ne by done; by rewrite Hpreco, Ht |].
    split.
    { rewrite !lookup_insert_ne by done. rewrite lookup_insert_eq. reflexivity. }
    rewrite list_ascii_of_string_of_list_ascii. split.
    + change ("R"%char :: "$"%char :: " "%char :: txt ("" +:+ js_trim t))
        with (txt ("R$ " +:+ js_trim t)).
      rewrite Hraw. by apply preco_limpo_cifrao_duplo.
    + apply preco_limpo_colapsado.
  - intros Hv Hpa. rewrite Hv, Hpa. cbn.
    eexists. split; [reflexivity |]. split; [by simplify_map_eq |].
    split; by simplify_map_eq.
Qed.

Lemma extrair_preco_witness :
  exists (p : produto) texto,
    extrair_produtos_pagina
      [elemento_ex "Parrilla" "https://loja/parrilla" " R$ 7.450,00 "]
      "Bancada" "2025-01-27T10:00:00" = Retorna [p]
    /\ p !! "preco"%string = Some (VStr ("R$ " +:+ js_trim " R$ 7.450,00 "))
    /\ p !! "preco_texto"%string = Some (VStr texto)
    /\ ocorrencias (txt "R$") (txt texto) = 1%nat
    /\ colapsado (txt texto) = true.
Proof.
  apply (proj1 (extrair_preco
                  (elemento_ex "Parrilla" "https://loja/parrilla" " R$ 7.450,00 ")
                  "Bancada" "2025-01-27T10:00:00" eq_refl)
           " R$ 7.450,00 "%string (txt " 7.450,00")); reflexivity.
Defined.
